(** * Hodgkin-Huxley action-potential notebook: a verified model

    A shallow embedding of [Hodgkin-Huxley_AP.ipynb]: the class
    [HodgkinHuxleyModel] (rate functions, ionic currents, the right-hand side
    [dALLdt], the fixed-step [Solvers] and the stepping method [__call__]) and
    the simulation cell (synaptic trace recurrence, recording loop, spike
    count).

    Numbers are IEEE-754 binary64 values, the kernel's primitive [float],
    which is what both Python's [float] and NumPy's [float64] are.  Two
    functions of the C maths library that NumPy calls, [exp] and [pow], are
    not part of the notebook; they enter through the class [Libm].  So do,
    through the class [NumPy], the refusals of NumPy to create an array. *)

From Stdlib Require Import Floats ZArith String List Bool Lia.
From ExtLib Require Import Structures.Monad.
Import ListNotations MonadNotation.

Set Warnings "-inexact-float".
Local Open Scope float_scope.
Local Open Scope monad_scope.

(** ** Python exceptions and the maths library *)

(** The exceptions the modelled code can raise. *)
Inductive exn : Type :=
| ZeroDivisionError
| ValueError
| OverflowError
| IndexError
| TypeError
| MemoryError.

(** A computation that returns a value or raises. *)
Definition py (A : Type) : Type := sum exn A.

#[export] Instance Monad_py : Monad py := {
  ret := fun _ a => inr a;
  bind := fun _ _ c k => match c with inl e => inl e | inr a => k a end
}.

(** [np.exp] and the [pow] behind [**] on a [float64].  The only facts used
    about them are the ones C (Annex F) and IEEE-754 fix exactly: the
    exponential of either zero is 1. *)
Class Libm : Type := {
  np_exp : float -> float;
  np_power : float -> float -> float;
  np_exp_zero : np_exp 0 = 1;
  np_exp_neg_zero : np_exp (-0) = 1
}.

(** Python's [/] on two Python floats: raises on a zero divisor (of either
    sign), otherwise the IEEE quotient. *)
Definition py_div (x y : float) : py float :=
  if y =? 0 then inl ZeroDivisionError else inr (x / y).

(** Python's [round(x)] on a float: the nearest integer, ties to even;
    [ValueError] on NaN and [OverflowError] on an infinity. *)
Definition round_half_even (m : positive) (e : Z) : Z :=
  if (0 <=? e)%Z then (Z.pos m * 2 ^ e)%Z
  else
    let d := (2 ^ (- e))%Z in
    let q := (Z.pos m / d)%Z in
    let rem := (Z.pos m mod d)%Z in
    if (d <? 2 * rem)%Z then (q + 1)%Z
    else if (2 * rem <? d)%Z then q
    else if Z.even q then q else (q + 1)%Z.

Definition py_round (x : float) : py Z :=
  match Prim2SF x with
  | S754_nan => inl ValueError
  | S754_infinity _ => inl OverflowError
  | S754_zero _ => inr 0%Z
  | S754_finite s m e =>
      let z := round_half_even m e in
      inr (if s then (- z)%Z else z)
  end.

(** What NumPy itself may refuse.  [np.zeros] and [np.arange] raise for a
    size past the limits of NumPy ([ValueError], from [np.arange] also
    [OverflowError]) and when memory runs out ([MemoryError]).  Which sizes
    those are is a matter of the NumPy build and of the machine, not of the
    notebook, so the answer is taken from outside: for each of the three
    arrays the cell creates, [None] if NumPy creates it, [Some e] if it
    raises [e].  [arange_error T dt] is asked for
    [np.arange(0.0, T, dt)], [zeros_error n] for [np.zeros(n)] and
    [zeros4_error n] for [np.zeros((n, 4))], the last two with [n >= 0]. *)
Class NumPy : Type := {
  arange_error : float -> float -> option exn;
  zeros_error : Z -> option exn;
  zeros4_error : Z -> option exn
}.

(** Raise what has been refused. *)
Definition raise_if (refusal : option exn) : py unit :=
  match refusal with
  | Some e => inl e
  | None => inr tt
  end.

(** ** Array-like values

    [Solvers] is written against whatever supports [+] with itself, [*] by a
    scalar on the left and [/] by a scalar on the right: a NumPy array or a
    plain scalar. *)
Class ArrayLike (X : Type) : Type := {
  add : X -> X -> X;
  scale : float -> X -> X;
  divide : X -> float -> X
}.

Declare Scope array_scope.
Delimit Scope array_scope with arr.
Notation "x +. y" := (add x y)
  (at level 50, left associativity) : array_scope.
Notation "c *. x" := (scale c x)
  (at level 40, left associativity) : array_scope.
Notation "x /. c" := (divide x c)
  (at level 40, left associativity) : array_scope.
Local Open Scope array_scope.

#[export] Instance ArrayLike_float : ArrayLike float := {
  add := PrimFloat.add;
  scale := PrimFloat.mul;
  divide := PrimFloat.div
}.

(** A one-dimensional [float64] array of length 4, as
    [np.array([V, m, h, n])]. *)
Definition array4 : Type := (float * float * float * float)%type.

#[export] Instance ArrayLike_array4 : ArrayLike array4 := {
  add := fun '(a1, a2, a3, a4) '(b1, b2, b3, b4) =>
           (a1 + b1, a2 + b2, a3 + b3, a4 + b4);
  scale := fun c '(a1, a2, a3, a4) => (c * a1, c * a2, c * a3, c * a4);
  divide := fun '(a1, a2, a3, a4) c => (a1 / c, a2 / c, a3 / c, a4 / c)
}.

(** ** Recording calls

    A callable passed to [Solvers] may be observed: [Logged X] pairs a result
    with the list of arguments the callable received, in call order. *)
Definition Logged (X A : Type) : Type := (A * list X)%type.

#[export] Instance Monad_Logged (X : Type) : Monad (Logged X) := {
  ret := fun _ a => (a, []);
  bind := fun _ _ c k => let '(a, l1) := c in
                         let '(b, l2) := k a in (b, l1 ++ l2)
}.

(** Wrap a pure function so that each call is recorded. *)
Definition logged {X : Type} (f : X -> X) : X -> Logged X X :=
  fun x => (f x, [x]).

(** The identity monad, for callables without effects. *)
Definition Pure (A : Type) : Type := A.

#[export] Instance Monad_Pure : Monad Pure := {
  ret := fun _ a => a;
  bind := fun _ _ c k => k c
}.

(** ** class HodgkinHuxleyModel *)
Module HodgkinHuxleyModel.

(** The attributes [__init__] creates.  [states] and [I_m] can hold
    [None]. *)
Record self : Type := Build {
  C_m : float;
  g_Na : float;
  g_K : float;
  g_L : float;
  E_Na : float;
  E_K : float;
  E_L : float;
  solver : string;
  dt : float;
  states : option array4;
  I_m : option float
}.

Definition set_states (s : self) (x : option array4) : self :=
  Build (C_m s) (g_Na s) (g_K s) (g_L s) (E_Na s) (E_K s) (E_L s)
        (solver s) (dt s) x (I_m s).

Definition set_I_m (s : self) (i : option float) : self :=
  Build (C_m s) (g_Na s) (g_K s) (g_L s) (E_Na s) (E_K s) (E_L s)
        (solver s) (dt s) (states s) i.

(** [__init__(self, dt=1e-3, solver="RK4")]; no argument is checked. *)
Definition __init__ (dt : float) (solver : string) : self :=
  {| C_m := 1.0;
     g_Na := 120.0;
     g_K := 36.0;
     g_L := 0.3;
     E_Na := 50.0;
     E_K := -77.0;
     E_L := -54.387;
     solver := solver;
     dt := dt;
     states := Some (-65, 0.05, 0.6, 0.32);
     I_m := None |}.

(** [Solvers(self, func, x, dt)].  [func] is any callable, so the method is
    written in an arbitrary monad; the [else] branch returns [None] without
    calling [func]. *)
Definition Solvers {M : Type -> Type} {MM : Monad M} {X : Type}
    {AX : ArrayLike X}
    (s : self) (func : X -> M X) (x : X) (dt : float) : M (option X) :=
  if (solver s =? "RK4")%string then
    f1 <- func x ;;
    let k1 := dt *. f1 in
    f2 <- func (x +. 0.5 *. k1) ;;
    let k2 := dt *. f2 in
    f3 <- func (x +. 0.5 *. k2) ;;
    let k3 := dt *. f3 in
    f4 <- func (x +. k3) ;;
    let k4 := dt *. f4 in
    ret (Some (x +. (k1 +. 2 *. k2 +. 2 *. k3 +. k4) /. 6))
  else if (solver s =? "Euler")%string then
    f1 <- func x ;;
    ret (Some (x +. dt *. f1))
  else
    ret None.

Section Rates.
Context {L : Libm}.

(** The six gate rate functions; none of them reads [self]. *)
Definition alpha_m (V : float) : float :=
  0.1 * (V + 40.0) / (1.0 - np_exp (- (V + 40.0) / 10.0)).

Definition beta_m (V : float) : float :=
  4.0 * np_exp (- (V + 65.0) / 18.0).

Definition alpha_h (V : float) : float :=
  0.07 * np_exp (- (V + 65.0) / 20.0).

Definition beta_h (V : float) : float :=
  1.0 / (1.0 + np_exp (- (V + 35.0) / 10.0)).

Definition alpha_n (V : float) : float :=
  0.01 * (V + 55.0) / (1.0 - np_exp (- (V + 55.0) / 10.0)).

Definition beta_n (V : float) : float :=
  0.125 * np_exp (- (V + 65) / 80.0).

(** Ionic currents. *)
Definition I_Na (s : self) (V m h : float) : float :=
  g_Na s * np_power m 3 * h * (V - E_Na s).

Definition I_K (s : self) (V n : float) : float :=
  g_K s * np_power n 4 * (V - E_K s).

Definition I_L (s : self) (V : float) : float :=
  g_L s * (V - E_L s).

(** [dALLdt(self, states)].  With [self.I_m] still [None] the first
    subtraction raises [TypeError]. *)
Definition dALLdt (s : self) (states : array4) : py array4 :=
  let '(V, m, h, n) := states in
  match I_m s with
  | None => inl TypeError
  | Some Im =>
      let dVdt := (Im - I_Na s V m h - I_K s V n - I_L s V) / C_m s in
      let dmdt := alpha_m V * (1.0 - m) - beta_m V * m in
      let dhdt := alpha_h V * (1.0 - h) - beta_h V * h in
      let dndt := alpha_n V * (1.0 - n) - beta_n V * n in
      inr (dVdt, dmdt, dhdt, dndt)
  end.

(** [__call__(self, I)]: returns the updated object and the value
    returned to the caller.  When [self.states] is [None], a supported
    solver calls [dALLdt(None)], whose unpacking raises [TypeError]; an
    unsupported one returns [None] again. *)
Definition __call__ (s : self) (I : float) : py (self * option array4) :=
  let s := set_I_m s (Some I) in
  new_states <-
    match states s with
    | Some x => Solvers s (dALLdt s) x (dt s)
    | None =>
        if ((solver s =? "RK4") || (solver s =? "Euler"))%string
        then inl TypeError
        else inr None
    end ;;
  ret (set_states s new_states, new_states).

End Rates.

End HodgkinHuxleyModel.

(** ** The simulation cell *)

(** [np.zeros(n)]: a negative dimension raises [ValueError]; for any other
    NumPy creates the array unless it refuses the size. *)
Definition np_zeros {N : NumPy} (n : Z) : py (list float) :=
  if (n <? 0)%Z then inl ValueError
  else match zeros_error n with
       | Some e => inl e
       | None => inr (repeat 0 (Z.to_nat n))
       end.

(** [np.zeros((n, 4))] for a size NumPy serves: a negative dimension raises
    [ValueError].  Where the whole cell is modelled, in [simulation], the
    refusal of a size is raised first, by [raise_if (zeros4_error n)]. *)
Definition np_zeros4 (n : Z) : py (list array4) :=
  if (n <? 0)%Z then inl ValueError
  else inr (repeat (0, 0, 0, 0) (Z.to_nat n)).

(** [a[i]] for [i] produced by [range]: [IndexError] past the end. *)
Definition getitem {A : Type} (a : list A) (i : nat) : py A :=
  match nth_error a i with
  | Some x => inr x
  | None => inl IndexError
  end.

(** [a[i] = x] for an index inside the array. *)
Fixpoint setitem {A : Type} (a : list A) (i : nat) (x : A) : list A :=
  match a, i with
  | [], _ => []
  | _ :: a', O => x :: a'
  | y :: a', S i' => y :: setitem a' i' x
  end.

(** [a[idx] = x] for a list of integer indices: each index must lie in
    [-len(a), len(a)), negative ones counting from the end. *)
Fixpoint setitems {A : Type} (a : list A) (idx : list Z) (x : A)
  : py (list A) :=
  match idx with
  | [] => inr a
  | j :: idx' =>
      let n := Z.of_nat (length a) in
      if ((- n <=? j) && (j <? n))%Z
      then setitems (setitem a (Z.to_nat (if (j <? 0)%Z then j + n else j)) x)
                    idx' x
      else inl IndexError
  end.

(** What a row of a [float64] array receives from [X_arr[i] = X]: the array
    itself, or NaN in every column when [X] is [None]. *)
Definition as_row (X : option array4) : array4 :=
  match X with
  | Some x => x
  | None => (nan, nan, nan, nan)
  end.

(** [for i in range(n): body], stopping at the first exception. *)
Fixpoint for_range {S : Type} (body : nat -> S -> py S) (indices : list nat)
    (s : S) : py S :=
  match indices with
  | [] => inr s
  | i :: rest =>
      match body i s with
      | inl e => inl e
      | inr s' => for_range body rest s'
      end
  end.

(** Element-wise [np.bitwise_and] of two boolean arrays of one length, and
    [np.sum] of a boolean array. *)
Fixpoint bitwise_and (a b : list bool) : list bool :=
  match a, b with
  | x :: a', y :: b' => (x && y) :: bitwise_and a' b'
  | _, _ => []
  end.

Definition np_sum (a : list bool) : nat :=
  length (filter (fun b => b) a).

(** Column 0 of the record. *)
Definition column0 (X_arr : list array4) : list float :=
  map (fun '(V, _, _, _) => V) X_arr.

(** The last two lines of the cell:
    [np.sum(np.bitwise_and(X_arr[:-1, 0] < 0, X_arr[1:, 0] > 0))]. *)
Definition count_spikes (X_arr : list array4) : nat :=
  let V := column0 X_arr in
  let spike :=
    bitwise_and (map (fun v => v <? 0) (removelast V))
                (map (fun v => 0 <? v) (tl V)) in
  np_sum spike.

(** The variables the loop updates. *)
Record loop_state : Type := LoopState {
  r : float;
  hr : float;
  r_list : list float;
  HH_neuron : HodgkinHuxleyModel.self;
  X_arr : list array4
}.

(** What the cell leaves behind. *)
Record result : Type := Result {
  res_X_arr : list array4;
  res_r_list : list float;
  num_spikes : nat
}.

Section Simulation.
Context {L : Libm} {N : NumPy}.

(** The cell's parameters.  The notebook fixes [dt = 0.01], [T = 400],
    [td = 20], [tr = 2], the amplitude 50 and the solver ["Euler"]. *)
Variables (dt T td tr amplitude : float) (solver : string).

(** [nt = round(T/dt)]. *)
Definition num_steps : py Z :=
  q <- py_div T dt ;;
  py_round q.

(** [spike = np.zeros(nt); spike[spike_times] = 1]. *)
Definition make_spike (nt : Z) (spike_times : list Z) : py (list float) :=
  spike <- np_zeros nt ;;
  setitems spike spike_times 1.

(** One pass through the loop body, at index [i]. *)
Definition loop_body (spike : list float) (i : nat) (s : loop_state)
  : py loop_state :=
  a <- py_div dt tr ;;
  let r' := r s * (1 - a) + hr s * dt in
  b <- py_div dt td ;;
  x <- getitem spike i ;;
  let hr' := hr s * (1 - b) + x / (tr * td) in
  let r_list' := r_list s ++ [r'] in
  '(HH, X) <- HodgkinHuxleyModel.__call__ (HH_neuron s) (r' * amplitude) ;;
  ret {| r := r'; hr := hr'; r_list := r_list';
         HH_neuron := HH; X_arr := setitem (X_arr s) i (as_row X) |}.

(** The state on entry to the loop. *)
Definition loop_init (X0 : list array4) : loop_state :=
  {| r := 0; hr := 0; r_list := [];
     HH_neuron := HodgkinHuxleyModel.__init__ dt solver; X_arr := X0 |}.

(** The first [k] iterations of the loop. *)
Definition loop_prefix (spike : list float) (X0 : list array4) (k : nat)
  : py loop_state :=
  for_range (loop_body spike) (seq 0 k) (loop_init X0).

(** The cell from the construction of the model on, for a given number of
    steps and spike train. *)
Definition run (nt : Z) (spike : list float) : py result :=
  X0 <- np_zeros4 nt ;;
  s <- loop_prefix spike X0 (Z.to_nat nt) ;;
  ret {| res_X_arr := X_arr s; res_r_list := r_list s;
         num_spikes := count_spikes (X_arr s) |}.

(** [time = np.arange(0.0, T, dt)].  Only the plotting cell reads [time];
    what the simulation sees of this line is the exception it may raise. *)
Definition np_arange_time : py unit :=
  raise_if (arange_error T dt).

(** The whole cell as written, statement by statement: the number of
    steps, [time], the spike train built from [spike_times], the model and
    the record [X_arr], the loop, the count. *)
Definition simulation (spike_times : list Z) : py result :=
  nt <- num_steps ;;
  np_arange_time ;;
  spike <- make_spike nt spike_times ;;
  raise_if (zeros4_error nt) ;;
  run nt spike.

(** The loop and the count driven by a spike train supplied from outside,
    for a record NumPy serves. *)
Definition simulation_with (spike : list float) : py result :=
  nt <- num_steps ;;
  run nt spike.

End Simulation.

(** ** A reference maths library

    A concrete [Libm], so that the model can be run: the exponential by
    argument halving and a Taylor polynomial, the power by repeated
    multiplication for whole non-negative exponents (the model only uses 3
    and 4).  It shows that the class is inhabited and serves the concrete
    runs below; no general statement depends on how accurate it is. *)
Fixpoint repeated_square (k : nat) (y : float) : float :=
  match k with
  | O => y
  | S k' => repeated_square k' (y * y)
  end.

Definition taylor_exp (x : float) : float :=
  1 + x * (1 + x / 2 * (1 + x / 3 * (1 + x / 4 * (1 + x / 5 *
    (1 + x / 6 * (1 + x / 7 * (1 + x / 8 * (1 + x / 9)))))))).

Definition reference_exp (x : float) : float :=
  repeated_square 10 (taylor_exp (x / 1024)).

Fixpoint power_nat (x : float) (n : nat) : float :=
  match n with
  | O => 1
  | S n' => x * power_nat x n'
  end.

Definition reference_power (x y : float) : float :=
  match py_round y with
  | inr z =>
      if ((0 <=? z)%Z && (PrimFloat.of_uint63 (Uint63.of_Z z) =? y))%bool
      then power_nat x (Z.to_nat z)
      else nan
  | inl _ => nan
  end.

#[export] Instance reference_libm : Libm := {
  np_exp := reference_exp;
  np_power := reference_power;
  np_exp_zero := eq_refl;
  np_exp_neg_zero := eq_refl
}.

(** NumPy where no array creation is ever refused, for the concrete runs
    below, whose arrays have a handful of entries. *)
Definition unbounded_numpy : NumPy := {|
  arange_error := fun _ _ => None;
  zeros_error := fun _ => None;
  zeros4_error := fun _ => None
|}.

(** ** The specification's formulas

    Closed formulas to compare the code with: the ones the specification
    words and, where its wording of the Runge-Kutta points does not fit the
    code, also the reading that does. *)
Module Spec.
Import HodgkinHuxleyModel.

Section WithLibm.
Context {L : Libm}.

(** [dx/dt = alpha_x(V)*(1 - x) - beta_x(V)*x]. *)
Definition gate_derivative (alpha beta : float -> float) (V x : float)
  : float :=
  alpha V * (1 - x) - beta V * x.

(** The derivative of the state [(V, m, h, n)] under the drive
    [I_drive]. *)
Definition derivative (p : self) (I_drive : float) (state : array4)
  : array4 :=
  let '(V, m, h, n) := state in
  let I_Na := g_Na p * np_power m 3 * h * (V - E_Na p) in
  let I_K := g_K p * np_power n 4 * (V - E_K p) in
  let I_L := g_L p * (V - E_L p) in
  ((I_drive - I_Na - I_K - I_L) / C_m p,
   gate_derivative alpha_m beta_m V m,
   gate_derivative alpha_h beta_h V h,
   gate_derivative alpha_n beta_n V n).
End WithLibm.

Section Integrators.
Context {X : Type} {AX : ArrayLike X}.
Variables (f : X -> X) (state : X) (dt : float).

(** Forward Euler. *)
Definition euler : X := state +. dt *. f state.

(** Runge-Kutta stages with [k_i = dt * derivative(...)], each next
    point taken from the increment before it. *)
Definition k1 : X := dt *. f state.
Definition k2 : X := dt *. f (state +. 0.5 *. k1).
Definition k3 : X := dt *. f (state +. 0.5 *. k2).
Definition k4 : X := dt *. f (state +. k3).

Definition rk4_points : list X :=
  [state; state +. 0.5 *. k1; state +. 0.5 *. k2; state +. k3].

Definition rk4 : X :=
  state +. (k1 +. 2 *. k2 +. 2 *. k3 +. k4) /. 6.

(** The evaluation points as the specification words them: [state],
    [state + dt/2*k1], [state + dt/2*k2], [state + dt*k3], again with
    [k_i = dt * derivative(...)]. *)
Definition worded_k1 : X := dt *. f state.
Definition worded_p2 : X := state +. (dt / 2) *. worded_k1.
Definition worded_k2 : X := dt *. f worded_p2.
Definition worded_p3 : X := state +. (dt / 2) *. worded_k2.
Definition worded_k3 : X := dt *. f worded_p3.
Definition worded_p4 : X := state +. dt *. worded_k3.

Definition rk4_points_worded : list X :=
  [state; worded_p2; worded_p3; worded_p4].
End Integrators.

Section Trace.
Variables (dt tr td : float).

(** One update of the synaptic pair for the spike indicator [x]: the new
    [r] from the old [hr], then the new [hr]. *)
Definition trace_step (x : float) (p : float * float) : float * float :=
  let '(r, hr) := p in
  let r_next := r * (1 - dt / tr) + hr * dt in
  let hr_next := hr * (1 - dt / td) + x / (tr * td) in
  (r_next, hr_next).

(** The same two assignments in the opposite order: [hr] first, then [r]
    from the new [hr]. *)
Definition trace_step_reversed (x : float) (p : float * float)
  : float * float :=
  let '(r, hr) := p in
  let hr_next := hr * (1 - dt / td) + x / (tr * td) in
  let r_next := r * (1 - dt / tr) + hr_next * dt in
  (r_next, hr_next).
End Trace.

(** The number of indices [i] in [0, n-2] with [V[i] < 0] and
    [V[i+1] > 0]. *)
Definition upward_crossing (V : list float) (i : nat) : bool :=
  (nth i V nan <? 0) && (0 <? nth (S i) V nan).

Definition spike_count (V : list float) : nat :=
  List.length (filter (upward_crossing V) (seq 0 (List.length V - 1))).

End Spec.

(** ** Notions used in the statements *)

(** What [Solvers] returns when [func] is a pure function. *)
Definition Solvers_value {X : Type} {AX : ArrayLike X}
    (s : HodgkinHuxleyModel.self) (f : X -> X) (x : X) (dt : float)
  : option X :=
  if (HodgkinHuxleyModel.solver s =? "RK4")%string
  then Some (Spec.rk4 f x dt)
  else if (HodgkinHuxleyModel.solver s =? "Euler")%string
  then Some (Spec.euler f x dt)
  else None.

(** The two names [Solvers] knows. *)
Definition supported (name : string) : bool :=
  ((name =? "RK4") || (name =? "Euler"))%string.

(** The model object is in a state its own methods can produce: [states]
    is [None] only under an unsupported solver name. *)
Definition consistent (s : HodgkinHuxleyModel.self) : Prop :=
  HodgkinHuxleyModel.states s = None ->
  supported (HodgkinHuxleyModel.solver s) = false.

(** The components of a state array. *)
Definition V_of (x : array4) : float := let '(V, _, _, _) := x in V.
Definition m_of (x : array4) : float := let '(_, m, _, _) := x in m.
Definition h_of (x : array4) : float := let '(_, _, h, _) := x in h.
Definition n_of (x : array4) : float := let '(_, _, _, n) := x in n.

(** Whether [a[j]] is inside an array of length [n], and the position it
    then refers to. *)
Definition in_range (n j : Z) : bool := ((- n <=? j) && (j <? n))%Z.

Definition position (n j : Z) : nat :=
  Z.to_nat (if (j <? 0)%Z then (j + n)%Z else j).

(** * Properties *)

Import HodgkinHuxleyModel.

(** ** Helper facts about the integrator and the step *)

Lemma unsupported_iff : forall name,
  supported name = false
  <-> name <> "RK4"%string /\ name <> "Euler"%string.
Proof.
  intros name. unfold supported. rewrite orb_false_iff.
  rewrite !String.eqb_neq. tauto.
Qed.

(** Against a callable that never raises, [Solvers] never raises. *)
Lemma Solvers_py_total :
  forall (X : Type) (AX : ArrayLike X) (s : self) (func : X -> py X)
         (f : X -> X) (x : X) (dt : float),
    (forall y, func y = inr (f y)) ->
    Solvers s func x dt = inr (Solvers_value s f x dt).
Proof.
  intros X AX s func f x dt Hf.
  unfold Solvers, Solvers_value.
  destruct (solver s =? "RK4")%string.
  - cbn [bind ret Monad_py]. repeat (rewrite Hf; cbv beta iota).
    reflexivity.
  - destruct (solver s =? "Euler")%string.
    + cbn [bind ret Monad_py]. rewrite Hf. reflexivity.
    + reflexivity.
Qed.

Lemma Solvers_value_None :
  forall (X : Type) (AX : ArrayLike X) (s : self) (f : X -> X) (x : X)
         (dt : float),
  Solvers_value s f x dt = None <-> supported (solver s) = false.
Proof.
  intros X AX s f x dt. unfold Solvers_value, supported.
  destruct (solver s =? "RK4")%string; [cbn; split; discriminate |].
  destruct (solver s =? "Euler")%string; cbn; split; intros;
    try discriminate; reflexivity.
Qed.

(** Recording the calls does not change the value, which is the one a pure
    callable gives. *)
Lemma Solvers_pure_value :
  forall (X : Type) (AX : ArrayLike X) (s : self) (f : X -> X) (x : X)
         (dt : float),
    Solvers (M := Pure) s f x dt = Solvers_value s f x dt
    /\ fst (Solvers (M := Logged X) s (logged f) x dt)
       = Solvers_value s f x dt.
Proof.
  intros X AX s f x dt. unfold Solvers, Solvers_value.
  destruct (solver s =? "RK4")%string; [split; reflexivity |].
  destruct (solver s =? "Euler")%string; split; reflexivity.
Qed.

(** Once the drive is stored, [dALLdt] is the specification's derivative. *)
Lemma dALLdt_with_drive :
  forall (L : Libm) (s : self) (I : float) (st : array4),
  dALLdt (set_I_m s (Some I)) st = inr (Spec.derivative s I st).
Proof.
  intros L s I [[[V m] h] n]. reflexivity.
Qed.

(** The outcome of one step on a consistent object. *)
Lemma call_consistent : forall (L : Libm) (s : self) (I : float),
  consistent s ->
  exists X,
    __call__ s I = inr (set_states (set_I_m s (Some I)) X, X)
    /\ (X = None <-> supported (solver s) = false)
    /\ consistent (set_states (set_I_m s (Some I)) X).
Proof.
  intros L s I Hc. unfold __call__.
  destruct (states s) as [x |] eqn:Hs.
  - exists (Solvers_value s (Spec.derivative s I) x (dt s)).
    cbn [states set_I_m]. rewrite Hs.
    rewrite (Solvers_py_total _ _ _ _ (Spec.derivative s I));
      [| intros y; apply dALLdt_with_drive].
    cbn. split; [reflexivity |]. split.
    + apply (Solvers_value_None _ _ (set_I_m s (Some I))).
    + unfold consistent. cbn. intros HN.
      apply (Solvers_value_None _ _ (set_I_m s (Some I))) in HN. exact HN.
  - exists None. cbn [states set_I_m]. rewrite Hs.
    specialize (Hc Hs).
    change (solver (set_I_m s (Some I))) with (solver s).
    unfold supported in Hc. rewrite Hc. cbn.
    split; [reflexivity |]. split; [tauto |].
    unfold consistent. cbn. intros _. exact Hc.
Qed.

Lemma init_consistent : forall (dt : float) (name : string),
  consistent (__init__ dt name).
Proof. intros dt name H. discriminate H. Qed.

(** ** Rate functions at their singular voltages *)

(** C1: evaluated exactly at the voltage where its denominator vanishes, each
    of [alpha_m] (at V = -40) and [alpha_n] (at V = -55) computes 0/0 and
    returns NaN, for every maths library: the finite analytic limit the claim
    asks for is not what the code returns. *)
Theorem alpha_at_singular_voltage_is_nan : forall (L : Libm),
  is_nan (alpha_m (-40)) = true /\ is_nan (alpha_n (-55)) = true.
Proof.
  intros L. unfold alpha_m, alpha_n.
  change (- (-40 + 40.0) / 10.0) with (-0).
  change (- (-55 + 55.0) / 10.0) with (-0).
  rewrite np_exp_neg_zero. split; reflexivity.
Qed.

(** ** Unsupported solver names *)

(** C2, refuted as stated: a model configured with the unsupported name
    "Heun" is constructed without complaint, and its step returns [None]
    rather than raising. *)
Lemma unsupported_solver_step_returns_None :
  solver (__init__ 0.01 "Heun") = "Heun"%string
  /\ (exists s', __call__ (__init__ 0.01 "Heun") 0 = inr (s', None))
  /\ ~ (exists e, __call__ (__init__ 0.01 "Heun") 0 = inl e).
Proof.
  split; [reflexivity |]. split.
  - eexists. reflexivity.
  - intros [e H]. discriminate H.
Qed.

(** C2 (amended): construction accepts every solver name and yields a
    consistent object; on a consistent object the step never raises, stores
    and returns the same value, and that value is [None] exactly when the
    solver name is neither "RK4" nor "Euler"; the object stays consistent,
    so the same holds for every later step. *)
Theorem step_outcome_by_solver : forall (L : Libm),
  (forall (dt : float) (name : string),
      solver (__init__ dt name) = name /\ consistent (__init__ dt name))
  /\ (forall (s : self) (I : float),
        consistent s ->
        exists X,
          __call__ s I = inr (set_states (set_I_m s (Some I)) X, X)
          /\ (X = None <->
              solver s <> "RK4"%string /\ solver s <> "Euler"%string)
          /\ consistent (set_states (set_I_m s (Some I)) X)).
Proof.
  intros L. split.
  - intros dt name. split; [reflexivity | apply init_consistent].
  - intros s I Hc.
    destruct (call_consistent L s I Hc) as [X [H1 [H2 H3]]].
    exists X. split; [exact H1 |]. split; [| exact H3].
    rewrite H2. apply unsupported_iff.
Qed.

Lemma step_outcome_by_solver_witness :
  consistent (__init__ 0.01 "Heun")
  /\ exists X,
       __call__ (__init__ 0.01 "Heun") 0
         = inr (set_states (set_I_m (__init__ 0.01 "Heun") (Some 0)) X, X)
       /\ (X = None <->
           solver (__init__ 0.01 "Heun") <> "RK4"%string
           /\ solver (__init__ 0.01 "Heun") <> "Euler"%string)
       /\ consistent
            (set_states (set_I_m (__init__ 0.01 "Heun") (Some 0)) X).
Proof.
  split.
  - intros H. discriminate H.
  - apply (proj2 (step_outcome_by_solver reference_libm)
             (__init__ 0.01 "Heun") 0).
    intros H. discriminate H.
Defined.

(** ** The derivative function *)

(** C3: with [I_drive] the drive most recently stored in the object,
    [dALLdt] maps [(V, m, h, n)] to the 4-tuple, in the same order, of
    [(I_drive - I_Na - I_K - I_L) / C_m] and the three gate derivatives
    [alpha_x(V)*(1 - x) - beta_x(V)*x], with the three currents as the
    specification gives them. *)
Theorem dALLdt_is_the_specified_derivative :
  forall (L : Libm) (s : self) (I_drive V m h n : float),
    I_m s = Some I_drive ->
    dALLdt s (V, m, h, n)
    = inr ((I_drive
            - g_Na s * np_power m 3 * h * (V - E_Na s)
            - g_K s * np_power n 4 * (V - E_K s)
            - g_L s * (V - E_L s)) / C_m s,
           alpha_m V * (1 - m) - beta_m V * m,
           alpha_h V * (1 - h) - beta_h V * h,
           alpha_n V * (1 - n) - beta_n V * n)
    /\ dALLdt s (V, m, h, n) = inr (Spec.derivative s I_drive (V, m, h, n)).
Proof.
  intros L s I_drive V m h n HI.
  unfold dALLdt. rewrite HI. split; reflexivity.
Qed.

Lemma dALLdt_is_the_specified_derivative_witness :
  I_m (set_I_m (__init__ 0.01 "Euler") (Some 2.5)) = Some 2.5
  /\ dALLdt (set_I_m (__init__ 0.01 "Euler") (Some 2.5)) (-65, 0.05, 0.6, 0.32)
     = inr (Spec.derivative (set_I_m (__init__ 0.01 "Euler") (Some 2.5)) 2.5
              (-65, 0.05, 0.6, 0.32)).
Proof.
  split; [reflexivity |].
  apply (dALLdt_is_the_specified_derivative reference_libm
           (set_I_m (__init__ 0.01 "Euler") (Some 2.5)) 2.5
           (-65) 0.05 0.6 0.32).
  reflexivity.
Defined.

(** ** The integrators *)

(** C4, refuted as stated: with the identity as derivative, state 1 and
    step 2, the second evaluation point of the code is 1 + 0.5*k1 = 2, while
    the point worded as state + dt/2*k1 (with k1 = dt * derivative(state))
    is 3. *)
Lemma rk4_points_differ_from_wording :
  snd (Solvers (M := Logged float) (__init__ 2 "RK4")
         (logged (fun y : float => y)) 1 2)
    = [1; 2; 3; 7]
  /\ Spec.rk4_points_worded (fun y : float => y) 1 2 = [1; 3; 7; 29]
  /\ snd (Solvers (M := Logged float) (__init__ 2 "RK4")
            (logged (fun y : float => y)) 1 2)
     <> Spec.rk4_points_worded (fun y : float => y) 1 2.
Proof.
  split; [reflexivity |]. split; [reflexivity |].
  intros H.
  pose proof (f_equal (fun l => match l with
                                | _ :: p :: _ => p =? 2
                                | _ => false
                                end) H) as E.
  vm_compute in E. discriminate E.
Qed.

(** C4 (amended): under "RK4" one step calls the derivative exactly four
    times, at state, state + 0.5*k1, state + 0.5*k2 and state + k3, in that
    order, and returns state + (k1 + 2*k2 + 2*k3 + k4)/6, where each
    k_i = dt * derivative(...) at the i-th point; for every array-like type,
    derivative function, state and step size. *)
Theorem Solvers_RK4_four_evaluations :
  forall (X : Type) (AX : ArrayLike X) (s : self) (f : X -> X) (x : X)
         (dt : float),
    solver s = "RK4"%string ->
    let k1 := dt *. f x in
    let k2 := dt *. f (x +. 0.5 *. k1) in
    let k3 := dt *. f (x +. 0.5 *. k2) in
    let k4 := dt *. f (x +. k3) in
    Solvers (M := Logged X) s (logged f) x dt
    = (Some (x +. (k1 +. 2 *. k2 +. 2 *. k3 +. k4) /. 6),
       [x; x +. 0.5 *. k1; x +. 0.5 *. k2; x +. k3])
    /\ List.length (snd (Solvers (M := Logged X) s (logged f) x dt)) = 4%nat.
Proof.
  intros X AX s f x dt Hs k1 k2 k3 k4.
  unfold Solvers. rewrite Hs. split; reflexivity.
Qed.

Lemma Solvers_RK4_four_evaluations_witness :
  solver (__init__ 2 "RK4") = "RK4"%string
  /\ Solvers (M := Logged float) (__init__ 2 "RK4")
       (logged (fun y : float => y)) 1 2
     = (Some 7, [1; 2; 3; 7]).
Proof.
  split; [reflexivity |].
  apply (Solvers_RK4_four_evaluations float ArrayLike_float
           (__init__ 2 "RK4") (fun y => y) 1 2).
  reflexivity.
Defined.

(** C5: under "Euler" one step calls the derivative exactly once, at the
    state, and returns state + dt * derivative(state); for every array-like
    type, derivative function, state and step size. *)
Theorem Solvers_Euler_one_evaluation :
  forall (X : Type) (AX : ArrayLike X) (s : self) (f : X -> X) (x : X)
         (dt : float),
    solver s = "Euler"%string ->
    Solvers (M := Logged X) s (logged f) x dt
    = (Some (x +. dt *. f x), [x]).
Proof.
  intros X AX s f x dt Hs.
  unfold Solvers. rewrite Hs. reflexivity.
Qed.

Lemma Solvers_Euler_one_evaluation_witness :
  solver (__init__ 0.5 "Euler") = "Euler"%string
  /\ Solvers (M := Logged float) (__init__ 0.5 "Euler")
       (logged (fun y : float => y)) 1 0.5
     = (Some 1.5, [1]).
Proof.
  split; [reflexivity |].
  apply (Solvers_Euler_one_evaluation float ArrayLike_float
           (__init__ 0.5 "Euler") (fun y => y) 1 0.5).
  reflexivity.
Defined.

(** ** Spike counting *)

Lemma filter_length_shift : forall (p : nat -> bool) (n start : nat),
  List.length (filter p (seq (S start) n))
  = List.length (filter (fun i => p (S i)) (seq start n)).
Proof.
  intros p n. induction n as [| n IH]; intros start; [reflexivity |].
  cbn [seq filter].
  destruct (p (S start)); cbn [List.length]; rewrite IH; reflexivity.
Qed.

Lemma filter_length_ext : forall (p q : nat -> bool) (l : list nat),
  (forall i, p i = q i) ->
  List.length (filter p l) = List.length (filter q l).
Proof.
  intros p q l H. induction l as [| a l IH]; [reflexivity |].
  cbn [filter]. rewrite H.
  destruct (q a); cbn [List.length]; rewrite IH; reflexivity.
Qed.

(** The scan over the two shifted slices, one sample at a time. *)
Lemma scan_cons : forall (v0 v1 : float) (rest : list float),
  np_sum (bitwise_and (map (fun v => v <? 0) (removelast (v0 :: v1 :: rest)))
                      (map (fun v => 0 <? v) (tl (v0 :: v1 :: rest))))
  = Nat.add (if (v0 <? 0) && (0 <? v1) then 1%nat else 0%nat)
      (np_sum (bitwise_and (map (fun v => v <? 0) (removelast (v1 :: rest)))
                           (map (fun v => 0 <? v) (tl (v1 :: rest))))).
Proof.
  intros v0 v1 rest.
  change (removelast (v0 :: v1 :: rest)) with (v0 :: removelast (v1 :: rest)).
  cbn [tl map bitwise_and]. unfold np_sum. cbn [filter].
  destruct ((v0 <? 0) && (0 <? v1)); reflexivity.
Qed.

Lemma spike_count_cons : forall (v0 v1 : float) (rest : list float),
  Spec.spike_count (v0 :: v1 :: rest)
  = Nat.add (if (v0 <? 0) && (0 <? v1) then 1%nat else 0%nat)
      (Spec.spike_count (v1 :: rest)).
Proof.
  intros v0 v1 rest. unfold Spec.spike_count.
  cbn [List.length Nat.sub]. rewrite Nat.sub_0_r.
  cbn [seq filter].
  change (Spec.upward_crossing (v0 :: v1 :: rest) 0)
    with ((v0 <? 0) && (0 <? v1)).
  assert (E : List.length (filter (Spec.upward_crossing (v0 :: v1 :: rest))
                             (seq 1 (List.length rest)))
              = List.length (filter (Spec.upward_crossing (v1 :: rest))
                               (seq 0 (List.length rest)))).
  { rewrite filter_length_shift. apply filter_length_ext. reflexivity. }
  destruct ((v0 <? 0) && (0 <? v1)); cbn [List.length Nat.add];
    rewrite E; reflexivity.
Qed.

Lemma scan_is_spike_count : forall V : list float,
  np_sum (bitwise_and (map (fun v => v <? 0) (removelast V))
                      (map (fun v => 0 <? v) (tl V)))
  = Spec.spike_count V.
Proof.
  intros [| v0 V']; [reflexivity |].
  revert v0. induction V' as [| v1 rest IH]; intros v0; [reflexivity |].
  rewrite scan_cons, spike_count_cons, IH. reflexivity.
Qed.

(** C7: the spike count is the number of indices [i] in [0, n-2] such that
    [V[i] < 0] and [V[i+1] > 0], both strict, where [V] is the voltage column
    of the record; it is a function of the record alone.  A sample equal to
    zero on either side of a transition does not count. *)
Theorem count_spikes_is_number_of_upward_crossings :
  forall X : list array4,
    count_spikes X = Spec.spike_count (column0 X)
    /\ count_spikes [(-1, 0, 0, 0); (0, 0, 0, 0); (1, 0, 0, 0)] = 0%nat
    /\ count_spikes [(-1, 0, 0, 0); (1, 0, 0, 0)] = 1%nat.
Proof.
  intros X. split; [| split; reflexivity].
  unfold count_spikes. apply scan_is_spike_count.
Qed.

(** ** The loop *)

Lemma for_range_app :
  forall (S : Type) (body : nat -> S -> py S) (l1 l2 : list nat) (s : S),
    for_range body (l1 ++ l2) s
    = match for_range body l1 s with
      | inl e => inl e
      | inr s' => for_range body l2 s'
      end.
Proof.
  intros S body l1. induction l1 as [| i l1 IH]; intros l2 s; [reflexivity |].
  cbn [app for_range]. destruct (body i s) as [e | s']; [reflexivity |].
  apply IH.
Qed.

(** The model object a successful step leaves behind. *)
Lemma call_stores_drive :
  forall (L : Libm) (s s' : self) (I : float) (X : option array4),
    __call__ s I = inr (s', X) ->
    s' = set_states (set_I_m s (Some I)) X.
Proof.
  intros L s s' I X. unfold __call__.
  match goal with
  | |- context [bind ?c _] => destruct c as [e | Y]
  end; cbn [bind ret Monad_py]; intros H; [discriminate H |].
  injection H as H1 H2. subst. reflexivity.
Qed.

Section LoopFacts.
Context {L : Libm}.
Variables (dt td tr amplitude : float) (solver : string).
Variables (spike : list float) (X0 : list array4).


Lemma loop_prefix_S : forall k : nat,
  loop_prefix dt td tr amplitude solver spike X0 (S k)
  = match loop_prefix dt td tr amplitude solver spike X0 k with
    | inl e => inl e
    | inr s => loop_body dt td tr amplitude spike k s
    end.
Proof.
  intros k. unfold loop_prefix.
  rewrite seq_S, for_range_app. cbn [Nat.add for_range].
  destruct (for_range _ (seq 0 k) _) as [e | s]; [reflexivity |].
  destruct (loop_body dt td tr amplitude spike k s); reflexivity.
Qed.

(** A run that completes has completed every shorter prefix. *)
Lemma loop_prefix_le : forall (n k : nat) (final : loop_state),
  loop_prefix dt td tr amplitude solver spike X0 n = inr final ->
  (k <= n)%nat ->
  exists s, loop_prefix dt td tr amplitude solver spike X0 k = inr s.
Proof.
  induction n as [| n IH]; intros k final Hn Hk.
  - assert (k = 0%nat) by lia. subst k. exists final. exact Hn.
  - destruct (Nat.eq_dec k (S n)) as [-> | Hne]; [exists final; exact Hn |].
    rewrite loop_prefix_S in Hn.
    destruct (loop_prefix dt td tr amplitude solver spike X0 n)
      as [e | s] eqn:Hp; [discriminate Hn |].
    apply (IH k s eq_refl). lia.
Qed.

(** What a completed iteration did. *)
Lemma loop_body_inr : forall (i : nat) (s s' : loop_state),
  loop_body dt td tr amplitude spike i s = inr s' ->
  (tr =? 0) = false /\ (td =? 0) = false
  /\ exists x X,
       nth_error spike i = Some x
       /\ (r s', hr s') = Spec.trace_step dt tr td x (r s, hr s)
       /\ __call__ (HH_neuron s) (r s' * amplitude) = inr (HH_neuron s', X)
       /\ r_list s' = r_list s ++ [r s']
       /\ X_arr s' = setitem (X_arr s) i (as_row X).
Proof.
  intros i s s'. unfold loop_body, py_div, getitem.
  destruct (tr =? 0); [discriminate |].
  destruct (td =? 0); [cbn; discriminate |].
  cbn [bind ret Monad_py].
  destruct (nth_error spike i) as [x |]; [| discriminate].
  destruct (__call__ (HH_neuron s) _) as [e | [HH X]] eqn:Hcall;
    [discriminate |].
  intros H. injection H as <-. cbn [r hr r_list HH_neuron X_arr].
  split; [reflexivity |]. split; [reflexivity |].
  exists x, X. repeat split. exact Hcall.
Qed.

End LoopFacts.

(** C6: in a run of [nt] steps that completes, the pair starts at (0, 0);
    at every step [i] it is updated once, the new [r] from the old [hr]
    ([r*(1 - dt/tr) + hr*dt]) and then the new [hr]
    ([hr*(1 - dt/td) + spike[i]/(tr*td)]); the model is stepped with the
    drive [r * amplitude] for the just-updated [r], which is the drive it
    then holds.  Doing the two assignments in the other order gives another
    result (shown for dt = 0.01, tr = 2, td = 20 and a spike at the first
    step). *)
Theorem synaptic_trace_updated_r_before_hr :
  forall (L : Libm) (dt td tr amplitude : float) (solver : string)
         (spike : list float) (X0 : list array4) (nt : nat)
         (final : loop_state),
    loop_prefix dt td tr amplitude solver spike X0 nt = inr final ->
    (exists s0, loop_prefix dt td tr amplitude solver spike X0 0 = inr s0
                /\ r s0 = 0 /\ hr s0 = 0)
    /\ (forall i : nat, (i < nt)%nat ->
          exists s s' x X,
            loop_prefix dt td tr amplitude solver spike X0 i = inr s
            /\ loop_prefix dt td tr amplitude solver spike X0 (S i) = inr s'
            /\ nth_error spike i = Some x
            /\ r s' = r s * (1 - dt / tr) + hr s * dt
            /\ hr s' = hr s * (1 - dt / td) + x / (tr * td)
            /\ (r s', hr s') = Spec.trace_step dt tr td x (r s, hr s)
            /\ __call__ (HH_neuron s) (r s' * amplitude)
               = inr (HH_neuron s', X)
            /\ I_m (HH_neuron s') = Some (r s' * amplitude)
            /\ r_list s' = r_list s ++ [r s'])
    /\ Spec.trace_step_reversed 0.01 2 20 1 (0, 0)
       <> Spec.trace_step 0.01 2 20 1 (0, 0).
Proof.
  intros L dt td tr amplitude solver spike X0 nt final Hrun.
  split; [| split].
  - eexists. split; [reflexivity |]. split; reflexivity.
  - intros i Hi.
    destruct (loop_prefix_le dt td tr amplitude solver spike X0
                nt (S i) final Hrun) as [s' Hs']; [lia |].
    pose proof Hs' as Hstep. rewrite loop_prefix_S in Hstep.
    destruct (loop_prefix dt td tr amplitude solver spike X0 i)
      as [e | s] eqn:Hs; [discriminate Hstep |].
    destruct (loop_body_inr dt td tr amplitude spike i s s' Hstep)
      as [_ [_ [x [X [Hx [Htr [Hcall [Hrl _]]]]]]]].
    pose proof Htr as Hpair. cbn [Spec.trace_step] in Hpair.
    injection Hpair as Hr Hhr.
    exists s, s', x, X. repeat split; try assumption.
    rewrite (call_stores_drive L _ _ _ _ Hcall). reflexivity.
  - intros H.
    pose proof (f_equal (fun p : float * float => fst p =? 0) H) as E.
    vm_compute in E. discriminate E.
Qed.

Lemma synaptic_trace_updated_r_before_hr_witness :
  exists final,
    loop_prefix 0.5 20 2 50 "Euler" [1; 0] [(0, 0, 0, 0); (0, 0, 0, 0)] 2
      = inr final
    /\ forall i : nat, (i < 2)%nat ->
         exists s s' x X,
           loop_prefix 0.5 20 2 50 "Euler" [1; 0]
             [(0, 0, 0, 0); (0, 0, 0, 0)] i = inr s
           /\ loop_prefix 0.5 20 2 50 "Euler" [1; 0]
                [(0, 0, 0, 0); (0, 0, 0, 0)] (S i) = inr s'
           /\ nth_error [1; 0] i = Some x
           /\ r s' = r s * (1 - 0.5 / 2) + hr s * 0.5
           /\ hr s' = hr s * (1 - 0.5 / 20) + x / (2 * 20)
           /\ (r s', hr s') = Spec.trace_step 0.5 2 20 x (r s, hr s)
           /\ __call__ (HH_neuron s) (r s' * 50) = inr (HH_neuron s', X)
           /\ I_m (HH_neuron s') = Some (r s' * 50)
           /\ r_list s' = r_list s ++ [r s'].
Proof.
  eexists. split; [vm_compute; reflexivity |].
  refine (proj1 (proj2 (synaptic_trace_updated_r_before_hr reference_libm
            0.5 20 2 50 "Euler" [1; 0] [(0, 0, 0, 0); (0, 0, 0, 0)] 2 _ _))).
  vm_compute. reflexivity.
Defined.

(** ** Errors of the cell *)

Section LoopErrors.
Context {L : Libm}.
Variables (dt td tr amplitude : float) (solver : string).
Variables (spike : list float) (X0 : list array4).
Hypothesis tr_nonzero : (tr =? 0) = false.
Hypothesis td_nonzero : (td =? 0) = false.


(** With an index inside the spike train and a consistent model, an
    iteration completes. *)
Lemma loop_body_completes : forall (i : nat) (s : loop_state),
  (i < List.length spike)%nat ->
  consistent (HH_neuron s) ->
  exists s',
    loop_body dt td tr amplitude spike i s = inr s'
    /\ consistent (HH_neuron s').
Proof.
  intros i s Hi Hc. unfold loop_body, py_div, getitem.
  rewrite tr_nonzero, td_nonzero. cbn [bind ret Monad_py].
  destruct (nth_error spike i) as [x |] eqn:Hx;
    [| apply nth_error_None in Hx; lia].
  destruct (call_consistent L (HH_neuron s)
              ((r s * (1 - dt / tr) + hr s * dt) * amplitude) Hc)
    as [X [Hcall [_ Hc']]].
  rewrite Hcall. eexists. split; [reflexivity |]. exact Hc'.
Qed.

(** Past the end of the spike train, an iteration raises [IndexError]. *)
Lemma loop_body_past_end : forall (i : nat) (s : loop_state),
  (List.length spike <= i)%nat ->
  loop_body dt td tr amplitude spike i s = inl IndexError.
Proof.
  intros i s Hi. unfold loop_body, py_div, getitem.
  rewrite tr_nonzero, td_nonzero. cbn [bind ret Monad_py].
  apply nth_error_None in Hi. rewrite Hi. reflexivity.
Qed.

Lemma loop_prefix_completes : forall k : nat,
  (k <= List.length spike)%nat ->
  exists s,
    loop_prefix dt td tr amplitude solver spike X0 k = inr s
    /\ consistent (HH_neuron s).
Proof.
  induction k as [| k IH]; intros Hk.
  - eexists. split; [reflexivity |]. apply init_consistent.
  - destruct IH as [s [Hs Hc]]; [lia |].
    destruct (loop_body_completes k s) as [s' [Hs' Hc']]; [lia | exact Hc |].
    exists s'. split; [| exact Hc'].
    rewrite loop_prefix_S. rewrite Hs. exact Hs'.
Qed.

Lemma loop_prefix_past_end : forall n : nat,
  (List.length spike < n)%nat ->
  loop_prefix dt td tr amplitude solver spike X0 n = inl IndexError.
Proof.
  induction n as [| n IH]; intros Hn; [lia |].
  rewrite loop_prefix_S.
  destruct (Nat.eq_dec n (List.length spike)) as [-> | Hne].
  - destruct (loop_prefix_completes (List.length spike)) as [s [Hs _]];
      [lia |].
    rewrite Hs. apply loop_body_past_end. lia.
  - rewrite IH by lia. reflexivity.
Qed.

End LoopErrors.

(** ** The spike train the cell builds for itself *)

Lemma setitem_length : forall (A : Type) (a : list A) (i : nat) (x : A),
  List.length (setitem a i x) = List.length a.
Proof.
  intros A a. induction a as [| y a IH]; intros i x; [reflexivity |].
  destruct i as [| i]; cbn [setitem List.length]; [reflexivity |].
  rewrite IH. reflexivity.
Qed.

Lemma setitems_length :
  forall (A : Type) (idx : list Z) (a a' : list A) (x : A),
    setitems a idx x = inr a' -> List.length a' = List.length a.
Proof.
  intros A idx. induction idx as [| j idx IH]; intros a a' x H.
  - injection H as <-. reflexivity.
  - cbn [setitems] in H.
    destruct ((- Z.of_nat (List.length a) <=? j)
              && (j <? Z.of_nat (List.length a)))%Z; [| discriminate H].
    apply IH in H. rewrite H. apply setitem_length.
Qed.

(** [spike] as the cell builds it has exactly [nt] entries. *)
Lemma make_spike_length :
  forall (N : NumPy) (nt : Z) (spike_times : list Z) (spike : list float),
    make_spike nt spike_times = inr spike ->
    (0 <= nt)%Z /\ zeros_error nt = None
    /\ List.length spike = Z.to_nat nt.
Proof.
  intros N nt spike_times spike. unfold make_spike, np_zeros.
  destruct (nt <? 0)%Z eqn:Hneg; [discriminate |].
  apply Z.ltb_ge in Hneg.
  destruct (zeros_error nt); [discriminate |].
  cbn [bind Monad_py]. intros H.
  apply setitems_length in H. rewrite H.
  split; [exact Hneg |]. split; [reflexivity | apply repeat_length].
Qed.

(** The notebook's values: 40000 steps, one spike at index 10000. *)
Example notebook_num_steps : num_steps 0.01 400 = inr 40000%Z.
Proof. vm_compute. reflexivity. Qed.

Example notebook_spike_train :
  match make_spike (N := unbounded_numpy) 40000 [10000%Z] with
  | inr spike =>
      (nth_error spike (Z.to_nat 9999), nth_error spike (Z.to_nat 10000),
       Z.of_nat (List.length spike))
  | inl _ => (None, None, 0%Z)
  end
  = (Some 0, Some 1, 40000%Z).
Proof. vm_compute. reflexivity. Qed.

(** * Further properties *)

(** ** Facts of binary64 arithmetic *)

Lemma Prim2SF_nan : Prim2SF nan = S754_nan.
Proof. reflexivity. Qed.

Lemma is_nan_eq : forall x : float, is_nan x = true -> x = nan.
Proof.
  intros x H. apply Prim2SF_inj. rewrite Prim2SF_nan.
  unfold is_nan in H. rewrite FloatAxioms.eqb_spec in H.
  destruct (Prim2SF x) as [s | s | | s m e]; try reflexivity.
  - destruct s; discriminate H.
  - destruct s; discriminate H.
  - exfalso. unfold SFeqb, SFcompare in H.
    rewrite Z.compare_refl, Pos.compare_refl in H.
    destruct s; discriminate H.
Qed.

Lemma nan_add_l : forall x : float, nan + x = nan.
Proof.
  intros x. apply Prim2SF_inj. rewrite FloatAxioms.add_spec, Prim2SF_nan.
  destruct (Prim2SF x); reflexivity.
Qed.

Lemma nan_add_r : forall x : float, x + nan = nan.
Proof.
  intros x. apply Prim2SF_inj. rewrite FloatAxioms.add_spec, Prim2SF_nan.
  destruct (Prim2SF x); reflexivity.
Qed.

Lemma nan_sub_l : forall x : float, nan - x = nan.
Proof.
  intros x. apply Prim2SF_inj. rewrite FloatAxioms.sub_spec, Prim2SF_nan.
  destruct (Prim2SF x); reflexivity.
Qed.

Lemma nan_mul_l : forall x : float, nan * x = nan.
Proof.
  intros x. apply Prim2SF_inj. rewrite FloatAxioms.mul_spec, Prim2SF_nan.
  destruct (Prim2SF x); reflexivity.
Qed.

Lemma nan_mul_r : forall x : float, x * nan = nan.
Proof.
  intros x. apply Prim2SF_inj. rewrite FloatAxioms.mul_spec, Prim2SF_nan.
  destruct (Prim2SF x); reflexivity.
Qed.

Lemma nan_div_l : forall x : float, nan / x = nan.
Proof.
  intros x. apply Prim2SF_inj. rewrite FloatAxioms.div_spec, Prim2SF_nan.
  destruct (Prim2SF x); reflexivity.
Qed.

Lemma above_zero_not_below : forall v : float,
  (0 <? v) = true -> (v <? 0) = false.
Proof.
  intros v. rewrite !FloatAxioms.ltb_spec.
  change (Prim2SF 0) with (S754_zero false).
  destruct (Prim2SF v) as [s | s | | s m e]; try destruct s; cbn;
    congruence.
Qed.

Lemma nan_not_above_zero : (0 <? nan) = false.
Proof. reflexivity. Qed.

(** ** Components of array operations *)

Lemma V_of_add : forall a b : array4, V_of (a +. b) = V_of a + V_of b.
Proof. intros [[[a1 a2] a3] a4] [[[b1 b2] b3] b4]. reflexivity. Qed.

Lemma m_of_add : forall a b : array4, m_of (a +. b) = m_of a + m_of b.
Proof. intros [[[a1 a2] a3] a4] [[[b1 b2] b3] b4]. reflexivity. Qed.

Lemma h_of_add : forall a b : array4, h_of (a +. b) = h_of a + h_of b.
Proof. intros [[[a1 a2] a3] a4] [[[b1 b2] b3] b4]. reflexivity. Qed.

Lemma n_of_add : forall a b : array4, n_of (a +. b) = n_of a + n_of b.
Proof. intros [[[a1 a2] a3] a4] [[[b1 b2] b3] b4]. reflexivity. Qed.

Lemma m_of_scale : forall (c : float) (a : array4),
  m_of (c *. a) = c * m_of a.
Proof. intros c [[[a1 a2] a3] a4]. reflexivity. Qed.

Lemma n_of_scale : forall (c : float) (a : array4),
  n_of (c *. a) = c * n_of a.
Proof. intros c [[[a1 a2] a3] a4]. reflexivity. Qed.

Lemma m_of_divide : forall (a : array4) (c : float),
  m_of (a /. c) = m_of a / c.
Proof. intros [[[a1 a2] a3] a4] c. reflexivity. Qed.

Lemma n_of_divide : forall (a : array4) (c : float),
  n_of (a /. c) = n_of a / c.
Proof. intros [[[a1 a2] a3] a4] c. reflexivity. Qed.

(** Under a supported name the value of [Solvers] is the state plus an
    increment. *)
Lemma Solvers_value_supported :
  forall (X : Type) (AX : ArrayLike X) (s : self) (f : X -> X) (x : X)
         (dt : float),
    supported (solver s) = true ->
    exists y : X,
      Solvers_value s f x dt = Some (x +. y)
      /\ (y = (Spec.k1 f x dt +. 2 *. Spec.k2 f x dt +. 2 *. Spec.k3 f x dt
               +. Spec.k4 f x dt) /. 6
          \/ y = dt *. f x).
Proof.
  intros X AX s f x dt Hs. unfold supported in Hs. unfold Solvers_value.
  destruct (solver s =? "RK4")%string.
  - eexists. split; [reflexivity |]. left. reflexivity.
  - destruct (solver s =? "Euler")%string; [| discriminate Hs].
    eexists. split; [reflexivity |]. right. reflexivity.
Qed.

(** The step on an object whose state is set. *)
Lemma call_with_state :
  forall (L : Libm) (s : self) (I : float) (x : array4),
    states s = Some x ->
    __call__ s I
    = inr (set_states (set_I_m s (Some I))
             (Solvers_value s (Spec.derivative s I) x (dt s)),
           Solvers_value s (Spec.derivative s I) x (dt s)).
Proof.
  intros L s I x Hs. unfold __call__.
  cbn [states set_I_m]. rewrite Hs.
  rewrite (Solvers_py_total _ _ _ _ (Spec.derivative s I));
    [| intros y; apply dALLdt_with_drive].
  reflexivity.
Qed.

Lemma alpha_m_singular : forall L : Libm, alpha_m (-40) = nan.
Proof.
  intros L. unfold alpha_m.
  change (- (-40 + 40.0) / 10.0) with (-0).
  rewrite np_exp_neg_zero. reflexivity.
Qed.

Lemma alpha_n_singular : forall L : Libm, alpha_n (-55) = nan.
Proof.
  intros L. unfold alpha_n.
  change (- (-55 + 55.0) / 10.0) with (-0).
  rewrite np_exp_neg_zero. reflexivity.
Qed.

(** ** The step as a whole *)

(** X1: on an object whose state is set, the step never raises, whatever the
    solver name and whatever drive (or [None]) was stored before: it returns
    and stores what the solver makes of the specified derivative under the
    drive just passed, [x + dt * derivative(x)] under "Euler".  The drive
    stored earlier has no influence on the result. *)
Theorem step_uses_the_drive_just_passed :
  forall (L : Libm) (s : self) (I : float) (x : array4),
    states s = Some x ->
    __call__ s I
    = inr (set_states (set_I_m s (Some I))
             (Solvers_value s (Spec.derivative s I) x (dt s)),
           Solvers_value s (Spec.derivative s I) x (dt s))
    /\ (solver s = "Euler"%string ->
        __call__ s I
        = inr (set_states (set_I_m s (Some I))
                 (Some (x +. dt s *. Spec.derivative s I x)),
               Some (x +. dt s *. Spec.derivative s I x)))
    /\ (forall old : option float,
          __call__ (set_I_m s old) I = __call__ s I).
Proof.
  intros L s I x Hs. split; [| split].
  - apply call_with_state. exact Hs.
  - intros HE. rewrite (call_with_state L s I x Hs).
    unfold Solvers_value. rewrite HE. reflexivity.
  - intros old.
    rewrite (call_with_state L s I x Hs).
    rewrite (call_with_state L (set_I_m s old) I x Hs).
    reflexivity.
Qed.

Lemma step_uses_the_drive_just_passed_witness :
  states (__init__ 0.01 "Euler") = Some (-65, 0.05, 0.6, 0.32)
  /\ forall old : option float,
       __call__ (set_I_m (__init__ 0.01 "Euler") old) 2.5
       = __call__ (__init__ 0.01 "Euler") 2.5.
Proof.
  split; [reflexivity |].
  apply (step_uses_the_drive_just_passed reference_libm
           (__init__ 0.01 "Euler") 2.5 (-65, 0.05, 0.6, 0.32)).
  reflexivity.
Defined.

(** X2: NaN is absorbing.  Under "RK4" or "Euler", a component of the state
    that is NaN is still NaN after the step, for every drive, step size and
    maths library: the code has no clamp or reset that would recover it. *)
Theorem nan_component_survives_the_step :
  forall (L : Libm) (s : self) (I : float) (x : array4),
    states s = Some x ->
    supported (solver s) = true ->
    exists x' : array4,
      __call__ s I
      = inr (set_states (set_I_m s (Some I)) (Some x'), Some x')
      /\ (is_nan (V_of x) = true -> is_nan (V_of x') = true)
      /\ (is_nan (m_of x) = true -> is_nan (m_of x') = true)
      /\ (is_nan (h_of x) = true -> is_nan (h_of x') = true)
      /\ (is_nan (n_of x) = true -> is_nan (n_of x') = true).
Proof.
  intros L s I x Hs Hsup.
  destruct (Solvers_value_supported array4 _ s (Spec.derivative s I) x
              (dt s) Hsup) as [y [Hy _]].
  exists (x +. y). rewrite (call_with_state L s I x Hs), Hy.
  split; [reflexivity |].
  rewrite V_of_add, m_of_add, h_of_add, n_of_add.
  repeat split; intros H; apply is_nan_eq in H; rewrite H, nan_add_l;
    reflexivity.
Qed.

Lemma nan_component_survives_the_step_witness :
  exists x' : array4,
    __call__ (set_states (__init__ 0.01 "RK4") (Some (-65, nan, 0.6, 0.32)))
      0
    = inr (set_states
             (set_I_m (set_states (__init__ 0.01 "RK4")
                         (Some (-65, nan, 0.6, 0.32))) (Some 0))
             (Some x'), Some x')
    /\ is_nan (m_of x') = true.
Proof.
  destruct (nan_component_survives_the_step reference_libm
              (set_states (__init__ 0.01 "RK4") (Some (-65, nan, 0.6, 0.32)))
              0 (-65, nan, 0.6, 0.32) eq_refl eq_refl)
    as [x' [Hcall [_ [Hm _]]]].
  exists x'. split; [exact Hcall | apply Hm; reflexivity].
Defined.

(** X3: a step taken from a voltage of exactly -40 leaves the gate [m] NaN,
    and one taken from exactly -55 leaves the gate [n] NaN, under "RK4" as
    under "Euler", for every drive, step size, gate values and maths
    library: the 0/0 of the rate function reaches the stored state. *)
Theorem step_from_singular_voltage_gives_nan_gate :
  forall (L : Libm) (s : self) (I m h n : float),
    supported (solver s) = true ->
    (states s = Some (-40, m, h, n) ->
     exists x' : array4,
       __call__ s I
       = inr (set_states (set_I_m s (Some I)) (Some x'), Some x')
       /\ is_nan (m_of x') = true)
    /\ (states s = Some (-55, m, h, n) ->
        exists x' : array4,
          __call__ s I
          = inr (set_states (set_I_m s (Some I)) (Some x'), Some x')
          /\ is_nan (n_of x') = true).
Proof.
  intros L s I m h n Hsup. split; intros Hs.
  - destruct (Solvers_value_supported array4 _ s (Spec.derivative s I)
                (-40, m, h, n) (dt s) Hsup) as [y [Hy Hform]].
    exists ((-40, m, h, n) +. y).
    rewrite (call_with_state L s I _ Hs), Hy. split; [reflexivity |].
    assert (Hk1 : m_of (dt s *. Spec.derivative s I (-40, m, h, n)) = nan).
    { rewrite m_of_scale. cbn [Spec.derivative m_of].
      unfold Spec.gate_derivative. rewrite alpha_m_singular.
      rewrite nan_mul_l, nan_sub_l, nan_mul_r. reflexivity. }
    rewrite m_of_add. destruct Hform as [-> | ->].
    + rewrite m_of_divide, !m_of_add. unfold Spec.k1. rewrite Hk1.
      rewrite !nan_add_l, nan_div_l, nan_add_r. reflexivity.
    + rewrite Hk1, nan_add_r. reflexivity.
  - destruct (Solvers_value_supported array4 _ s (Spec.derivative s I)
                (-55, m, h, n) (dt s) Hsup) as [y [Hy Hform]].
    exists ((-55, m, h, n) +. y).
    rewrite (call_with_state L s I _ Hs), Hy. split; [reflexivity |].
    assert (Hk1 : n_of (dt s *. Spec.derivative s I (-55, m, h, n)) = nan).
    { rewrite n_of_scale. cbn [Spec.derivative n_of].
      unfold Spec.gate_derivative. rewrite alpha_n_singular.
      rewrite nan_mul_l, nan_sub_l, nan_mul_r. reflexivity. }
    rewrite n_of_add. destruct Hform as [-> | ->].
    + rewrite n_of_divide, !n_of_add. unfold Spec.k1. rewrite Hk1.
      rewrite !nan_add_l, nan_div_l, nan_add_r. reflexivity.
    + rewrite Hk1, nan_add_r. reflexivity.
Qed.

Lemma step_from_singular_voltage_gives_nan_gate_witness :
  exists x' : array4,
    __call__ (set_states (__init__ 0.01 "Euler") (Some (-40, 0.05, 0.6, 0.32)))
      0
    = inr (set_states
             (set_I_m (set_states (__init__ 0.01 "Euler")
                         (Some (-40, 0.05, 0.6, 0.32))) (Some 0))
             (Some x'), Some x')
    /\ is_nan (m_of x') = true.
Proof.
  apply (proj1 (step_from_singular_voltage_gives_nan_gate reference_libm
                  (set_states (__init__ 0.01 "Euler")
                     (Some (-40, 0.05, 0.6, 0.32)))
                  0 0.05 0.6 0.32 eq_refl)).
  reflexivity.
Defined.

(** X4: the derivative cannot be taken before a drive has been supplied: on
    an object whose [I_m] is still [None], as [__init__] leaves it,
    [dALLdt] raises [TypeError] for every state, and so does [Solvers]
    applied to it under "RK4" or "Euler"; under any other name [Solvers]
    returns [None] without calling it. *)
Theorem derivative_needs_a_stored_drive :
  forall (L : Libm) (s : self) (st : array4) (step : float),
    I_m s = None ->
    dALLdt s st = inl TypeError
    /\ (supported (solver s) = true ->
        Solvers s (dALLdt s) st step = inl TypeError)
    /\ (supported (solver s) = false ->
        Solvers s (dALLdt s) st step = inr None).
Proof.
  intros L s [[[V m] h] n] step HI.
  assert (Hd : forall y, dALLdt s y = inl TypeError).
  { intros [[[V' m'] h'] n']. unfold dALLdt. rewrite HI. reflexivity. }
  split; [apply Hd |]. split.
  - intros Hsup. unfold supported in Hsup. unfold Solvers.
    destruct (solver s =? "RK4")%string.
    + cbn [bind Monad_py]. rewrite Hd. reflexivity.
    + destruct (solver s =? "Euler")%string; [| discriminate Hsup].
      cbn [bind Monad_py]. rewrite Hd. reflexivity.
  - intros Hsup. unfold supported in Hsup. unfold Solvers.
    apply orb_false_iff in Hsup. destruct Hsup as [H1 H2].
    rewrite H1, H2. reflexivity.
Qed.

Lemma derivative_needs_a_stored_drive_witness :
  I_m (__init__ 0.01 "RK4") = None
  /\ dALLdt (__init__ 0.01 "RK4") (-65, 0.05, 0.6, 0.32) = inl TypeError.
Proof.
  split; [reflexivity |].
  apply (derivative_needs_a_stored_drive reference_libm
           (__init__ 0.01 "RK4") (-65, 0.05, 0.6, 0.32) 0.01).
  reflexivity.
Defined.

(** ** Indexed assignment *)

Lemma nth_error_setitem_eq : forall (A : Type) (a : list A) (i : nat) (x : A),
  (i < List.length a)%nat -> nth_error (setitem a i x) i = Some x.
Proof.
  intros A a. induction a as [| y a IH]; intros i x Hi;
    [cbn in Hi; lia |].
  destruct i as [| i]; [reflexivity |].
  cbn [setitem nth_error]. apply IH. cbn in Hi. lia.
Qed.

Lemma nth_error_setitem_neq :
  forall (A : Type) (a : list A) (i j : nat) (x : A),
    i <> j -> nth_error (setitem a i x) j = nth_error a j.
Proof.
  intros A a. induction a as [| y a IH]; intros i j x Hij; [reflexivity |].
  destruct i as [| i]; destruct j as [| j]; try reflexivity;
    [contradiction |].
  cbn [setitem nth_error]. apply IH. lia.
Qed.

Lemma position_in_range : forall (n j : Z),
  in_range n j = true -> (Z.of_nat (position n j) < n)%Z.
Proof.
  intros n j H. unfold in_range in H. apply andb_true_iff in H.
  destruct H as [H1 H2]. apply Z.leb_le in H1. apply Z.ltb_lt in H2.
  unfold position. destruct (j <? 0)%Z eqn:Hj.
  - apply Z.ltb_lt in Hj. rewrite Z2Nat.id; lia.
  - apply Z.ltb_ge in Hj. rewrite Z2Nat.id; lia.
Qed.

(** What [a[idx] = x] leaves in the array when it succeeds. *)
Lemma setitems_inr :
  forall (A : Type) (idx : list Z) (a a' : list A) (x : A),
    setitems a idx x = inr a' ->
    forallb (in_range (Z.of_nat (List.length a))) idx = true
    /\ forall p : nat,
         nth_error a' p
         = if existsb
                (fun j => (position (Z.of_nat (List.length a)) j =? p)%nat)
                idx
           then Some x else nth_error a p.
Proof.
  intros A idx. induction idx as [| j idx IH]; intros a a' x H.
  - injection H as <-. split; reflexivity.
  - cbn [setitems] in H. cbn [forallb existsb].
    fold (in_range (Z.of_nat (List.length a)) j) in H.
    destruct (in_range (Z.of_nat (List.length a)) j) eqn:Hj;
      [| discriminate H].
    fold (position (Z.of_nat (List.length a)) j) in H.
    apply IH in H. rewrite setitem_length in H. destruct H as [Hall Hnth].
    split; [exact Hall |].
    intros p. rewrite Hnth.
    destruct (existsb _ idx); [rewrite orb_true_r; reflexivity |].
    rewrite orb_false_r.
    destruct (Nat.eqb_spec (position (Z.of_nat (List.length a)) j) p)
      as [<- | Hne].
    + apply nth_error_setitem_eq.
      apply position_in_range in Hj. lia.
    + apply nth_error_setitem_neq. exact Hne.
Qed.

(** It fails exactly when an index is out of range, with [IndexError]. *)
Lemma setitems_inl :
  forall (A : Type) (idx : list Z) (a : list A) (x : A),
    forallb (in_range (Z.of_nat (List.length a))) idx = false ->
    setitems a idx x = inl IndexError.
Proof.
  intros A idx. induction idx as [| j idx IH]; intros a x H;
    [discriminate H |].
  cbn [setitems]. cbn [forallb] in H.
  fold (in_range (Z.of_nat (List.length a)) j).
  destruct (in_range (Z.of_nat (List.length a)) j); [| reflexivity].
  cbn [andb] in H. apply IH. rewrite setitem_length. exact H.
Qed.

Lemma setitems_total :
  forall (A : Type) (idx : list Z) (a : list A) (x : A),
    forallb (in_range (Z.of_nat (List.length a))) idx = true ->
    exists a', setitems a idx x = inr a'.
Proof.
  intros A idx. induction idx as [| j idx IH]; intros a x H.
  - exists a. reflexivity.
  - cbn [setitems]. cbn [forallb] in H. apply andb_true_iff in H.
    destruct H as [Hj Hall].
    fold (in_range (Z.of_nat (List.length a)) j). rewrite Hj.
    apply IH. rewrite setitem_length. exact Hall.
Qed.

Lemma nth_error_repeat : forall (A : Type) (a : A) (n p : nat),
  (p < n)%nat -> nth_error (repeat a n) p = Some a.
Proof.
  intros A a n. induction n as [| n IH]; intros p Hp; [lia |].
  destruct p as [| p]; [reflexivity |]. cbn. apply IH. lia.
Qed.

(** X5: [spike = np.zeros(nt); spike[spike_times] = 1] raises [ValueError]
    for a negative [nt], whatever NumPy raises if it refuses an array of
    [nt] entries, and [IndexError] as soon as one index lies outside
    [-nt, nt); otherwise the train has [nt] entries, each 0 or 1, with 1
    exactly at the positions the indices refer to, negative indices counting
    from the end and repeated indices counting once. *)
Theorem make_spike_marks_the_given_indices :
  forall (N : NumPy) (nt : Z) (spike_times : list Z),
    ((nt < 0)%Z -> make_spike nt spike_times = inl ValueError)
    /\ (forall e : exn,
          (0 <= nt)%Z -> zeros_error nt = Some e ->
          make_spike nt spike_times = inl e)
    /\ ((0 <= nt)%Z -> zeros_error nt = None ->
        forallb (in_range nt) spike_times = false ->
        make_spike nt spike_times = inl IndexError)
    /\ ((0 <= nt)%Z -> zeros_error nt = None ->
        forallb (in_range nt) spike_times = true ->
        exists spike : list float,
          make_spike nt spike_times = inr spike
          /\ List.length spike = Z.to_nat nt
          /\ forall p : nat,
               (p < Z.to_nat nt)%nat ->
               nth_error spike p
               = Some (if existsb (fun j => (position nt j =? p)%nat)
                            spike_times
                       then 1 else 0)).
Proof.
  intros N nt spike_times. unfold make_spike, np_zeros.
  split; [| split; [| split]].
  - intros Hneg. apply Z.ltb_lt in Hneg. rewrite Hneg. reflexivity.
  - intros e Hpos He.
    assert (Hlt : (nt <? 0)%Z = false) by (apply Z.ltb_ge; lia).
    rewrite Hlt, He. reflexivity.
  - intros Hpos Hgranted Hbad.
    assert (Hlt : (nt <? 0)%Z = false) by (apply Z.ltb_ge; lia).
    rewrite Hlt, Hgranted. cbn [bind Monad_py].
    apply setitems_inl. rewrite repeat_length, Z2Nat.id by lia. exact Hbad.
  - intros Hpos Hgranted Hok.
    assert (Hlt : (nt <? 0)%Z = false) by (apply Z.ltb_ge; lia).
    rewrite Hlt, Hgranted. cbn [bind Monad_py].
    assert (Hlen : Z.of_nat (List.length (repeat 0 (Z.to_nat nt))) = nt)
      by (rewrite repeat_length, Z2Nat.id; lia).
    destruct (setitems_total float spike_times (repeat 0 (Z.to_nat nt)) 1)
      as [spike Hs]; [rewrite Hlen; exact Hok |].
    exists spike. split; [exact Hs |].
    pose proof (setitems_length _ _ _ _ _ Hs) as Hl.
    rewrite repeat_length in Hl. split; [exact Hl |].
    intros p Hp. apply setitems_inr in Hs. destruct Hs as [_ Hnth].
    rewrite Hnth, Hlen.
    destruct (existsb _ spike_times); [reflexivity |].
    apply nth_error_repeat. exact Hp.
Qed.

Lemma make_spike_marks_the_given_indices_witness :
  make_spike (N := unbounded_numpy) 5 [1%Z; (-1)%Z] = inr [0; 1; 0; 0; 1]
  /\ make_spike (N := unbounded_numpy) 5 [5%Z] = inl IndexError
  /\ exists spike : list float,
       make_spike (N := unbounded_numpy) 5 [1%Z; (-1)%Z] = inr spike
       /\ List.length spike = Z.to_nat 5
       /\ forall p : nat,
            (p < Z.to_nat 5)%nat ->
            nth_error spike p
            = Some (if existsb (fun j => (position 5 j =? p)%nat)
                         [1%Z; (-1)%Z]
                    then 1 else 0).
Proof.
  split; [reflexivity |]. split.
  - apply (proj1 (proj2 (proj2 (make_spike_marks_the_given_indices
                                  unbounded_numpy 5 [5%Z]))));
      [lia | reflexivity | reflexivity].
  - apply (proj2 (proj2 (proj2 (make_spike_marks_the_given_indices
                                  unbounded_numpy 5 [1%Z; (-1)%Z]))));
      [lia | reflexivity | reflexivity].
Defined.

(** ** What the loop leaves in the record *)

Lemma nth_error_snoc_lt : forall (A : Type) (l : list A) (x : A) (i : nat),
  (i < List.length l)%nat -> nth_error (l ++ [x]) i = nth_error l i.
Proof. intros A l x i Hi. apply nth_error_app1. exact Hi. Qed.

Lemma nth_error_snoc_eq : forall (A : Type) (l : list A) (x : A),
  nth_error (l ++ [x]) (List.length l) = Some x.
Proof.
  intros A l x. rewrite nth_error_app2 by lia.
  rewrite Nat.sub_diag. reflexivity.
Qed.

Section RecordFacts.
Context {L : Libm}.
Variables (dt td tr amplitude : float) (solver : string).
Variables (spike : list float) (X0 : list array4).

(** The step inside a completed iteration, with the object it leaves. *)
Lemma loop_body_model : forall (i : nat) (s s' : loop_state),
  loop_body dt td tr amplitude spike i s = inr s' ->
  HH_neuron s'
  = set_states (set_I_m (HH_neuron s) (Some (r s' * amplitude)))
      (states (HH_neuron s'))
  /\ X_arr s' = setitem (X_arr s) i (as_row (states (HH_neuron s')))
  /\ r_list s' = r_list s ++ [r s'].
Proof.
  intros i s s' H.
  destruct (loop_body_inr dt td tr amplitude spike i s s' H)
    as [_ [_ [x [X [_ [_ [Hcall [Hrl HX]]]]]]]].
  pose proof (call_stores_drive L _ _ _ _ Hcall) as Hm.
  assert (HXs : states (HH_neuron s') = X) by (rewrite Hm; reflexivity).
  rewrite HXs. repeat split; assumption.
Qed.

Lemma loop_prefix_inr_S : forall (k : nat) (s' : loop_state),
  loop_prefix dt td tr amplitude solver spike X0 (S k) = inr s' ->
  exists s,
    loop_prefix dt td tr amplitude solver spike X0 k = inr s
    /\ loop_body dt td tr amplitude spike k s = inr s'.
Proof.
  intros k s' H. rewrite loop_prefix_S in H.
  destruct (loop_prefix dt td tr amplitude solver spike X0 k) as [e | s];
    [discriminate H |].
  exists s. split; [reflexivity | exact H].
Qed.

(** Only [states] and [I_m] of the model ever change. *)
Lemma loop_prefix_model : forall (k : nat) (s : loop_state),
  loop_prefix dt td tr amplitude solver spike X0 k = inr s ->
  HH_neuron s
  = set_states (set_I_m (__init__ dt solver) (I_m (HH_neuron s)))
      (states (HH_neuron s))
  /\ consistent (HH_neuron s).
Proof.
  induction k as [| k IH]; intros s H.
  - injection H as <-. split; [reflexivity | apply init_consistent].
  - destruct (loop_prefix_inr_S k s H) as [s0 [H0 Hb]].
    destruct (IH s0 H0) as [Hm0 Hc0].
    destruct (loop_body_inr dt td tr amplitude spike k s0 s Hb)
      as [_ [_ [x [X [_ [_ [Hcall _]]]]]]].
    destruct (call_consistent L (HH_neuron s0) (r s * amplitude) Hc0)
      as [X' [Hcall' [_ Hc']]].
    rewrite Hcall in Hcall'. injection Hcall' as Hm HX. subst X'.
    split; [| rewrite Hm; exact Hc'].
    rewrite Hm. rewrite Hm0. reflexivity.
Qed.

(** The record after [k] completed iterations. *)
Lemma loop_prefix_record : forall (k : nat) (s : loop_state),
  loop_prefix dt td tr amplitude solver spike X0 k = inr s ->
  (k <= List.length X0)%nat ->
  List.length (X_arr s) = List.length X0
  /\ List.length (r_list s) = k
  /\ (forall j : nat, (k <= j)%nat -> nth_error (X_arr s) j = nth_error X0 j)
  /\ (forall i : nat, (i < k)%nat ->
        exists s',
          loop_prefix dt td tr amplitude solver spike X0 (S i) = inr s'
          /\ nth_error (X_arr s) i = Some (as_row (states (HH_neuron s')))
          /\ nth_error (r_list s) i = Some (r s')).
Proof.
  induction k as [| k IH]; intros s H Hk.
  - injection H as <-. cbn. repeat split; try reflexivity.
    intros i Hi. lia.
  - destruct (loop_prefix_inr_S k s H) as [s0 [H0 Hb]].
    destruct (IH s0 H0) as [Hlen [Hrl [Hrest Hrows]]]; [lia |].
    destruct (loop_body_model k s0 s Hb) as [_ [HX Hr]].
    rewrite HX, Hr. rewrite setitem_length, length_app. cbn [List.length].
    split; [exact Hlen |]. split; [lia |]. split.
    + intros j Hj. rewrite nth_error_setitem_neq by lia. apply Hrest. lia.
    + intros i Hi. destruct (Nat.eq_dec i k) as [-> | Hne].
      * exists s. split; [exact H |]. split.
        -- apply nth_error_setitem_eq. lia.
        -- rewrite <- Hrl. apply nth_error_snoc_eq.
      * destruct (Hrows i) as [s' [Hs' [Hx Hri]]]; [lia |].
        exists s'. split; [exact Hs' |]. split.
        -- rewrite nth_error_setitem_neq by lia. exact Hx.
        -- rewrite nth_error_snoc_lt by lia. exact Hri.
Qed.

End RecordFacts.

(** X6: a run that completes has computed a non-negative number of steps
    [nt = round(T/dt)], has read one entry of the spike train per step (so
    the train has at least [nt] entries), and returns a record of exactly
    [nt] rows together with exactly [nt] values of [r]. *)
Theorem completed_run_has_one_row_per_step :
  forall (L : Libm) (dt T td tr amplitude : float) (solver : string)
         (spike : list float) (res : result),
    simulation_with dt T td tr amplitude solver spike = inr res ->
    exists nt : Z,
      num_steps dt T = inr nt
      /\ (0 <= nt)%Z
      /\ List.length (res_X_arr res) = Z.to_nat nt
      /\ List.length (res_r_list res) = Z.to_nat nt
      /\ (Z.to_nat nt <= List.length spike)%nat
      /\ num_spikes res = count_spikes (res_X_arr res).
Proof.
  intros L dt T td tr amplitude solver spike res H.
  unfold simulation_with in H.
  destruct (num_steps dt T) as [e | nt]; [discriminate H |].
  cbn [bind Monad_py] in H. unfold run, np_zeros4 in H.
  destruct (nt <? 0)%Z eqn:Hneg; [discriminate H |].
  cbn [bind ret Monad_py] in H. apply Z.ltb_ge in Hneg.
  destruct (loop_prefix dt td tr amplitude solver spike
              (repeat (0, 0, 0, 0) (Z.to_nat nt)) (Z.to_nat nt))
    as [e | s] eqn:Hs; [discriminate H |].
  injection H as <-. cbn [res_X_arr res_r_list num_spikes].
  exists nt. split; [reflexivity |]. split; [exact Hneg |].
  destruct (loop_prefix_record dt td tr amplitude solver spike _ _ s Hs)
    as [Hlen [Hrl _]]; [rewrite repeat_length; lia |].
  rewrite repeat_length in Hlen.
  split; [exact Hlen |]. split; [exact Hrl |]. split; [| reflexivity].
  destruct (Z.to_nat nt) as [| k] eqn:Hk; [lia |].
  destruct (loop_prefix_inr_S dt td tr amplitude solver spike _ k s Hs)
    as [s0 [_ Hb]].
  destruct (loop_body_inr dt td tr amplitude spike k s0 s Hb)
    as [_ [_ [x [X [Hx _]]]]].
  assert (Hlt : (k < List.length spike)%nat).
  { apply nth_error_Some. rewrite Hx. discriminate. }
  lia.
Qed.

Lemma completed_run_has_one_row_per_step_witness :
  exists (res : result) (nt : Z),
    simulation_with 0.5 1 20 2 50 "Euler" [1; 0] = inr res
    /\ num_steps 0.5 1 = inr nt
    /\ (0 <= nt)%Z
    /\ List.length (res_X_arr res) = Z.to_nat nt
    /\ List.length (res_r_list res) = Z.to_nat nt
    /\ (Z.to_nat nt <= List.length [1; 0])%nat
    /\ num_spikes res = count_spikes (res_X_arr res).
Proof.
  eexists.
  assert (H : simulation_with 0.5 1 20 2 50 "Euler" [1; 0] = inr _)
    by (vm_compute; reflexivity).
  destruct (completed_run_has_one_row_per_step reference_libm
              0.5 1 20 2 50 "Euler" [1; 0] _ H) as [nt Hnt].
  exists nt. split; [exact H | exact Hnt].
Defined.

(** X7: after [nt] completed iterations on a record of at least [nt] rows,
    row [i] of the record is the state the model held right after step [i]
    (NaN in every column if that state was [None]) and [r_list[i]] is the
    value of [r] at that step, for every [i < nt]; later iterations never
    overwrite an earlier row, rows from [nt] on are untouched, and the last
    written row is the model's current state. *)
Theorem record_row_is_the_state_after_its_step :
  forall (L : Libm) (dt td tr amplitude : float) (solver : string)
         (spike : list float) (X0 : list array4) (nt : nat)
         (final : loop_state),
    loop_prefix dt td tr amplitude solver spike X0 nt = inr final ->
    (nt <= List.length X0)%nat ->
    (forall i : nat, (i < nt)%nat ->
       exists s',
         loop_prefix dt td tr amplitude solver spike X0 (S i) = inr s'
         /\ nth_error (X_arr final) i
            = Some (as_row (states (HH_neuron s')))
         /\ nth_error (r_list final) i = Some (r s'))
    /\ (forall j : nat, (nt <= j)%nat ->
          nth_error (X_arr final) j = nth_error X0 j)
    /\ (forall i : nat, nt = S i ->
          nth_error (X_arr final) i
          = Some (as_row (states (HH_neuron final)))
          /\ nth_error (r_list final) i = Some (r final)).
Proof.
  intros L dt td tr amplitude solver spike X0 nt final H Hnt.
  destruct (loop_prefix_record dt td tr amplitude solver spike X0 nt final
              H Hnt) as [_ [_ [Hrest Hrows]]].
  split; [exact Hrows |]. split; [exact Hrest |].
  intros i ->. destruct (Hrows i) as [s' [Hs' [Hx Hr]]]; [lia |].
  rewrite H in Hs'. injection Hs' as <-. split; assumption.
Qed.

Lemma record_row_is_the_state_after_its_step_witness :
  exists final : loop_state,
    loop_prefix 0.5 20 2 50 "Euler" [1; 0]
      [(0, 0, 0, 0); (0, 0, 0, 0); (7, 7, 7, 7)] 2 = inr final
    /\ nth_error (X_arr final) 2 = Some (7, 7, 7, 7)
    /\ nth_error (X_arr final) 1 = Some (as_row (states (HH_neuron final))).
Proof.
  eexists.
  assert (H : loop_prefix 0.5 20 2 50 "Euler" [1; 0]
                [(0, 0, 0, 0); (0, 0, 0, 0); (7, 7, 7, 7)] 2 = inr _)
    by (vm_compute; reflexivity).
  assert (Hlen : (2 <= List.length
                         [(0, 0, 0, 0); (0, 0, 0, 0); (7, 7, 7, 7)])%nat)
    by (cbn; lia).
  destruct (record_row_is_the_state_after_its_step reference_libm
              0.5 20 2 50 "Euler" [1; 0]
              [(0, 0, 0, 0); (0, 0, 0, 0); (7, 7, 7, 7)] 2 _ H Hlen)
    as [_ [Hrest Hlast]].
  split; [exact H |]. split.
  - rewrite (Hrest 2%nat) by lia. reflexivity.
  - apply (Hlast 1%nat). reflexivity.
Defined.

(** X8: throughout a run the model keeps the seven parameters, the solver
    name and the step size it was constructed with: after any number of
    completed iterations it differs from the freshly constructed object
    only in [states] and [I_m], and it is still consistent. *)
Theorem model_parameters_never_change :
  forall (L : Libm) (dt td tr amplitude : float) (solver : string)
         (spike : list float) (X0 : list array4) (k : nat) (s : loop_state),
    loop_prefix dt td tr amplitude solver spike X0 k = inr s ->
    HH_neuron s
    = set_states (set_I_m (__init__ dt solver) (I_m (HH_neuron s)))
        (states (HH_neuron s))
    /\ (C_m (HH_neuron s), g_Na (HH_neuron s), g_K (HH_neuron s),
        g_L (HH_neuron s))
       = (1.0, 120.0, 36.0, 0.3)
    /\ (E_Na (HH_neuron s), E_K (HH_neuron s), E_L (HH_neuron s))
       = (50.0, -77.0, -54.387)
    /\ HodgkinHuxleyModel.solver (HH_neuron s) = solver
    /\ HodgkinHuxleyModel.dt (HH_neuron s) = dt
    /\ consistent (HH_neuron s).
Proof.
  intros L dt td tr amplitude solver spike X0 k s H.
  destruct (loop_prefix_model dt td tr amplitude solver spike X0 k s H)
    as [Hm Hc].
  split; [exact Hm |].
  rewrite Hm. repeat split. rewrite <- Hm. exact Hc.
Qed.

Lemma model_parameters_never_change_witness :
  exists s : loop_state,
    loop_prefix 0.5 20 2 50 "RK4" [1; 0] [(0, 0, 0, 0); (0, 0, 0, 0)] 2
      = inr s
    /\ HodgkinHuxleyModel.solver (HH_neuron s) = "RK4"%string
    /\ HodgkinHuxleyModel.dt (HH_neuron s) = 0.5.
Proof.
  eexists.
  assert (H : loop_prefix 0.5 20 2 50 "RK4" [1; 0]
                [(0, 0, 0, 0); (0, 0, 0, 0)] 2 = inr _)
    by (vm_compute; reflexivity).
  destruct (model_parameters_never_change reference_libm
              0.5 20 2 50 "RK4" [1; 0] [(0, 0, 0, 0); (0, 0, 0, 0)] 2 _ H)
    as [_ [_ [_ [Hs [Hd _]]]]].
  split; [exact H |]. split; [exact Hs | exact Hd].
Defined.

(** ** Before the first spike *)

Section Quiescence.
Context {L : Libm}.
Variables (dt td tr amplitude : float) (solver : string).
Variables (spike : list float) (X0 : list array4).
Hypothesis rest_is_kept : Spec.trace_step dt tr td 0 (0, 0) = (0, 0).

Lemma loop_prefix_quiescent : forall (k : nat) (s : loop_state),
  (forall j : nat, (j < k)%nat -> nth_error spike j = Some 0) ->
  loop_prefix dt td tr amplitude solver spike X0 k = inr s ->
  r s = 0 /\ hr s = 0 /\ r_list s = repeat 0 k.
Proof.
  induction k as [| k IH]; intros s Hz H.
  - injection H as <-. repeat split.
  - destruct (loop_prefix_inr_S dt td tr amplitude solver spike X0 k s H)
      as [s0 [H0 Hb]].
    destruct (IH s0) as [Hr0 [Hhr0 Hl0]];
      [intros j Hj; apply Hz; lia | exact H0 |].
    destruct (loop_body_inr dt td tr amplitude spike k s0 s Hb)
      as [_ [_ [x [X [Hx [Htr [_ [Hrl _]]]]]]]].
    rewrite (Hz k) in Hx by lia. injection Hx as <-.
    rewrite Hr0, Hhr0, rest_is_kept in Htr. injection Htr as Hr Hhr.
    split; [exact Hr |]. split; [exact Hhr |].
    rewrite Hrl, Hl0, Hr. rewrite <- repeat_cons. reflexivity.
Qed.

End Quiescence.

(** X9: until the first spike nothing drives the model.  If one update of
    the resting pair (0, 0) with a zero spike entry gives (0, 0) again (as
    it does for the notebook's dt = 0.01, tr = 2, td = 20) and the first [k]
    entries of the spike train are 0, then after [k] completed iterations
    [r] and [hr] are still exactly 0, every recorded [r] is 0, and the drive
    the model last received is [0 * amplitude]. *)
Theorem no_drive_before_the_first_spike :
  forall (L : Libm) (dt td tr amplitude : float) (solver : string)
         (spike : list float) (X0 : list array4) (k : nat) (s : loop_state),
    Spec.trace_step dt tr td 0 (0, 0) = (0, 0) ->
    (forall j : nat, (j < k)%nat -> nth_error spike j = Some 0) ->
    loop_prefix dt td tr amplitude solver spike X0 k = inr s ->
    r s = 0 /\ hr s = 0 /\ r_list s = repeat 0 k
    /\ ((0 < k)%nat -> I_m (HH_neuron s) = Some (0 * amplitude)).
Proof.
  intros L dt td tr amplitude solver spike X0 k s Hrest Hz H.
  destruct (loop_prefix_quiescent dt td tr amplitude solver spike X0 Hrest
              k s Hz H) as [Hr [Hhr Hl]].
  split; [exact Hr |]. split; [exact Hhr |]. split; [exact Hl |].
  intros Hk. destruct k as [| k]; [lia |].
  destruct (loop_prefix_inr_S dt td tr amplitude solver spike X0 k s H)
    as [s0 [_ Hb]].
  destruct (loop_body_model dt td tr amplitude spike k s0 s Hb)
    as [Hm _].
  rewrite Hm, Hr. reflexivity.
Qed.

Lemma no_drive_before_the_first_spike_witness :
  Spec.trace_step 0.01 2 20 0 (0, 0) = (0, 0)
  /\ exists s : loop_state,
       loop_prefix 0.01 20 2 50 "Euler" [0; 0; 1]
         [(0, 0, 0, 0); (0, 0, 0, 0); (0, 0, 0, 0)] 2 = inr s
       /\ r s = 0 /\ hr s = 0 /\ r_list s = repeat 0 2.
Proof.
  split; [reflexivity |].
  eexists.
  assert (H : loop_prefix 0.01 20 2 50 "Euler" [0; 0; 1]
                [(0, 0, 0, 0); (0, 0, 0, 0); (0, 0, 0, 0)] 2 = inr _)
    by (vm_compute; reflexivity).
  split; [exact H |].
  assert (Hz : forall j : nat, (j < 2)%nat ->
                 nth_error [0; 0; 1] j = Some 0).
  { intros j Hj. destruct j as [| [| j]]; [reflexivity | reflexivity | lia]. }
  destruct (no_drive_before_the_first_spike reference_libm
              0.01 20 2 50 "Euler" [0; 0; 1]
              [(0, 0, 0, 0); (0, 0, 0, 0); (0, 0, 0, 0)] 2 _
              eq_refl Hz H) as [Hr [Hhr [Hl _]]].
  split; [exact Hr |]. split; [exact Hhr | exact Hl].
Defined.

(** ** Which exception, and why *)

Section ErrorCauses.
Context {L : Libm}.
Variables (dt td tr amplitude : float) (solver : string).
Variables (spike : list float) (X0 : list array4).

(** An iteration on a consistent model raises only for a zero time constant
    or for an index past the spike train. *)
Lemma loop_body_inl : forall (i : nat) (s : loop_state) (e : exn),
  consistent (HH_neuron s) ->
  loop_body dt td tr amplitude spike i s = inl e ->
  (e = ZeroDivisionError /\ ((tr =? 0) || (td =? 0))%bool = true)
  \/ (e = IndexError /\ (tr =? 0) = false /\ (td =? 0) = false
      /\ (List.length spike <= i)%nat).
Proof.
  intros i s e Hc. unfold loop_body, py_div, getitem.
  destruct (tr =? 0); [intros H; injection H as <-; left; split; reflexivity |].
  destruct (td =? 0);
    [cbn; intros H; injection H as <-; left; split; reflexivity |].
  cbn [bind ret Monad_py].
  destruct (nth_error spike i) as [x |] eqn:Hx.
  - destruct (call_consistent L (HH_neuron s)
                ((r s * (1 - dt / tr) + hr s * dt) * amplitude) Hc)
      as [X [Hcall _]].
    rewrite Hcall. discriminate.
  - intros H. injection H as <-. right.
    apply nth_error_None in Hx. repeat split. exact Hx.
Qed.

(** A failed prefix has a first failing iteration. *)
Lemma loop_prefix_inl : forall (k : nat) (e : exn),
  loop_prefix dt td tr amplitude solver spike X0 k = inl e ->
  exists (i : nat) (s : loop_state),
    (i < k)%nat
    /\ loop_prefix dt td tr amplitude solver spike X0 i = inr s
    /\ loop_body dt td tr amplitude spike i s = inl e.
Proof.
  induction k as [| k IH]; intros e H; [discriminate H |].
  rewrite loop_prefix_S in H.
  destruct (loop_prefix dt td tr amplitude solver spike X0 k)
    as [e' | s] eqn:Hk.
  - injection H as <-. destruct (IH e' eq_refl) as [i [s [Hi [Hs Hb]]]].
    exists i, s. split; [lia |]. split; assumption.
  - exists k, s. split; [lia |]. split; [exact Hk | exact H].
Qed.

Lemma loop_prefix_error_cause : forall (k : nat) (e : exn),
  loop_prefix dt td tr amplitude solver spike X0 k = inl e ->
  (0 < k)%nat
  /\ ((e = ZeroDivisionError /\ ((tr =? 0) || (td =? 0))%bool = true)
      \/ (e = IndexError /\ (tr =? 0) = false /\ (td =? 0) = false
          /\ (List.length spike < k)%nat)).
Proof.
  intros k e H. destruct (loop_prefix_inl k e H) as [i [s [Hi [Hs Hb]]]].
  split; [lia |].
  destruct (loop_prefix_model dt td tr amplitude solver spike X0 i s Hs)
    as [_ Hc].
  destruct (loop_body_inl i s e Hc Hb) as [[-> Hz] | [-> [Htr [Htd Hlen]]]].
  - left. split; [reflexivity | exact Hz].
  - right. repeat split; try assumption. lia.
Qed.

(** With a zero time constant the first iteration already raises. *)
Lemma loop_prefix_zero_constant : forall k : nat,
  ((tr =? 0) || (td =? 0))%bool = true ->
  loop_prefix dt td tr amplitude solver spike X0 (S k)
  = inl ZeroDivisionError.
Proof.
  intros k Hz. unfold loop_prefix. cbn [seq for_range].
  unfold loop_body at 1. unfold py_div.
  destruct (tr =? 0); [reflexivity |].
  cbn [orb] in Hz. rewrite Hz. reflexivity.
Qed.

End ErrorCauses.

(** [round] raises for NaN and for the infinities only. *)
Lemma py_round_inl : forall (x : float) (e : exn),
  py_round x = inl e ->
  (e = ValueError /\ is_nan x = true)
  \/ (e = OverflowError /\ is_infinity x = true).
Proof.
  intros x e. unfold py_round.
  destruct (Prim2SF x) as [s | s | | s m z] eqn:E; intros H;
    try discriminate H; injection H as <-.
  - right. split; [reflexivity |].
    rewrite <- (SF2Prim_Prim2SF x), E. destruct s; reflexivity.
  - left. split; [reflexivity |].
    rewrite <- (SF2Prim_Prim2SF x), E. reflexivity.
Qed.

Lemma run_error_cause :
  forall (L : Libm) (dt td tr amplitude : float) (solver : string)
         (nt : Z) (spike : list float) (e : exn),
    run dt td tr amplitude solver nt spike = inl e ->
    (e = ValueError /\ (nt < 0)%Z)
    \/ (e = ZeroDivisionError /\ (0 < nt)%Z
        /\ ((tr =? 0) || (td =? 0))%bool = true)
    \/ (e = IndexError /\ (tr =? 0) = false /\ (td =? 0) = false
        /\ (Z.of_nat (List.length spike) < nt)%Z).
Proof.
  intros L dt td tr amplitude solver nt spike e. unfold run, np_zeros4.
  destruct (nt <? 0)%Z eqn:Hneg.
  - intros H. injection H as <-. left. apply Z.ltb_lt in Hneg.
    split; [reflexivity | exact Hneg].
  - cbn [bind ret Monad_py]. apply Z.ltb_ge in Hneg.
    destruct (loop_prefix dt td tr amplitude solver spike
                (repeat (0, 0, 0, 0) (Z.to_nat nt)) (Z.to_nat nt))
      as [e' | s] eqn:Hs; [| discriminate].
    intros H. injection H as <-. right.
    destruct (loop_prefix_error_cause dt td tr amplitude solver spike _ _ _
                Hs) as [Hk [[-> Hz] | [-> [Htr [Htd Hlen]]]]].
    + left. split; [reflexivity |]. split; [lia | exact Hz].
    + right. repeat split; try assumption. lia.
Qed.

(** Why building the spike train failed. *)
Lemma make_spike_inl :
  forall (N : NumPy) (nt : Z) (spike_times : list Z) (e : exn),
    make_spike nt spike_times = inl e ->
    (e = ValueError /\ (nt < 0)%Z)
    \/ ((0 <= nt)%Z /\ zeros_error nt = Some e)
    \/ (e = IndexError /\ (0 <= nt)%Z /\ zeros_error nt = None
        /\ forallb (in_range nt) spike_times = false).
Proof.
  intros N nt spike_times e. unfold make_spike, np_zeros.
  destruct (nt <? 0)%Z eqn:Hneg.
  - intros H. injection H as <-. left. apply Z.ltb_lt in Hneg.
    split; [reflexivity | exact Hneg].
  - apply Z.ltb_ge in Hneg. right.
    destruct (zeros_error nt) as [e' |] eqn:Hz.
    + injection H as <-. left. split; [exact Hneg | reflexivity].
    + cbn [bind Monad_py] in H. right.
      destruct (forallb (in_range nt) spike_times) eqn:Hall.
      * destruct (setitems_total float spike_times
                    (repeat 0 (Z.to_nat nt)) 1) as [a' Ha'];
          [rewrite repeat_length, Z2Nat.id by lia; exact Hall |].
        rewrite Ha' in H. discriminate H.
      * rewrite setitems_inl in H
          by (rewrite repeat_length, Z2Nat.id by lia; exact Hall).
        injection H as <-. repeat split. exact Hneg.
Qed.

Lemma make_spike_in_range :
  forall (N : NumPy) (nt : Z) (spike_times : list Z) (spike : list float),
    make_spike nt spike_times = inr spike ->
    forallb (in_range nt) spike_times = true.
Proof.
  intros N nt spike_times spike Hsp.
  destruct (make_spike_length N _ _ _ Hsp) as [Hpos _].
  unfold make_spike, np_zeros in Hsp.
  destruct (nt <? 0)%Z; [discriminate Hsp |].
  destruct (zeros_error nt); [discriminate Hsp |].
  cbn [bind Monad_py] in Hsp. apply setitems_inr in Hsp.
  destruct Hsp as [Hall _].
  rewrite repeat_length, Z2Nat.id in Hall by lia. exact Hall.
Qed.

Lemma make_spike_total :
  forall (N : NumPy) (nt : Z) (spike_times : list Z),
    (0 <= nt)%Z -> zeros_error nt = None ->
    forallb (in_range nt) spike_times = true ->
    exists spike : list float, make_spike nt spike_times = inr spike.
Proof.
  intros N nt spike_times Hpos Hz Hok. unfold make_spike, np_zeros.
  assert (Hlt : (nt <? 0)%Z = false) by (apply Z.ltb_ge; lia).
  rewrite Hlt, Hz. cbn [bind Monad_py].
  apply setitems_total.
  rewrite repeat_length, Z2Nat.id by lia. exact Hok.
Qed.

(** The cell once the number of steps is known. *)
Lemma simulation_after_num_steps :
  forall (L : Libm) (N : NumPy) (dt T td tr amplitude : float)
         (solver : string) (spike_times : list Z) (nt : Z),
    num_steps dt T = inr nt ->
    simulation dt T td tr amplitude solver spike_times
    = match arange_error T dt with
      | Some e => inl e
      | None =>
          match make_spike nt spike_times with
          | inl e => inl e
          | inr spike =>
              match zeros4_error nt with
              | Some e => inl e
              | None => run dt td tr amplitude solver nt spike
              end
          end
      end.
Proof.
  intros L N dt T td tr amplitude solver spike_times nt Hn.
  unfold simulation, np_arange_time, raise_if. rewrite Hn.
  cbn [bind Monad_py].
  destruct (arange_error T dt); [reflexivity |].
  destruct (make_spike nt spike_times); [reflexivity |].
  destruct (zeros4_error nt); reflexivity.
Qed.

(** The train the cell has built is long enough for its loop. *)
Lemma run_on_built_train :
  forall (L : Libm) (N : NumPy) (dt td tr amplitude : float)
         (solver : string) (spike_times : list Z) (nt : Z)
         (spike : list float),
    make_spike nt spike_times = inr spike ->
    (tr =? 0) = false -> (td =? 0) = false ->
    exists s : loop_state,
      loop_prefix dt td tr amplitude solver spike
        (repeat (0, 0, 0, 0) (Z.to_nat nt)) (Z.to_nat nt) = inr s
      /\ run dt td tr amplitude solver nt spike
         = inr {| res_X_arr := X_arr s; res_r_list := r_list s;
                  num_spikes := count_spikes (X_arr s) |}.
Proof.
  intros L N dt td tr amplitude solver spike_times nt spike Hsp Htr Htd.
  destruct (make_spike_length N _ _ _ Hsp) as [Hpos [_ Hlen]].
  destruct (loop_prefix_completes dt td tr amplitude solver spike
              (repeat (0, 0, 0, 0) (Z.to_nat nt)) Htr Htd (Z.to_nat nt))
    as [s [Hs _]]; [lia |].
  exists s. split; [exact Hs |].
  unfold run, np_zeros4.
  assert (Hlt : (nt <? 0)%Z = false) by (apply Z.ltb_ge; lia).
  rewrite Hlt. cbn [bind ret Monad_py]. rewrite Hs. reflexivity.
Qed.

(** X10: every exception of the cell as written has one of these causes.
    [ZeroDivisionError]: [dt] is zero, or [tr] or [td] is zero and at least
    one step runs.  [ValueError] from [round]: [T/dt] is NaN;
    [OverflowError] from [round]: [T/dt] is infinite.  [ValueError] from
    [np.zeros(nt)]: [nt] is negative.  [IndexError]: an index of
    [spike_times] lies outside [-nt, nt).  Anything else is raised by NumPy
    when it refuses to create [time], [spike] or [X_arr].  So the loop
    never raises [IndexError] and the model never raises [TypeError]. *)
Theorem every_error_of_the_cell_has_its_cause :
  forall (L : Libm) (N : NumPy) (dt T td tr amplitude : float)
         (solver : string) (spike_times : list Z) (e : exn),
    simulation dt T td tr amplitude solver spike_times = inl e ->
    (e = ZeroDivisionError /\ (dt =? 0) = true)
    \/ (e = ValueError /\ (dt =? 0) = false /\ is_nan (T / dt) = true)
    \/ (e = OverflowError /\ (dt =? 0) = false
        /\ is_infinity (T / dt) = true)
    \/ exists nt : Z,
         num_steps dt T = inr nt
         /\ (arange_error T dt = Some e
             \/ (arange_error T dt = None
                 /\ ((e = ValueError /\ (nt < 0)%Z)
                     \/ ((0 <= nt)%Z /\ zeros_error nt = Some e)
                     \/ (e = IndexError /\ (0 <= nt)%Z
                         /\ zeros_error nt = None
                         /\ forallb (in_range nt) spike_times = false)
                     \/ ((0 <= nt)%Z /\ zeros_error nt = None
                         /\ forallb (in_range nt) spike_times = true
                         /\ zeros4_error nt = Some e)
                     \/ (e = ZeroDivisionError /\ (0 < nt)%Z
                         /\ zeros_error nt = None
                         /\ forallb (in_range nt) spike_times = true
                         /\ zeros4_error nt = None
                         /\ ((tr =? 0) || (td =? 0))%bool = true)))).
Proof.
  intros L N dt T td tr amplitude solver spike_times e H.
  destruct (num_steps dt T) as [e' | nt] eqn:Hn.
  - unfold simulation in H. rewrite Hn in H. injection H as <-.
    unfold num_steps, py_div in Hn. destruct (dt =? 0) eqn:Hdt.
    + injection Hn as <-. left. split; reflexivity.
    + cbn [bind Monad_py] in Hn.
      destruct (py_round_inl _ _ Hn) as [[-> Hnan] | [-> Hinf]].
      * right. left. repeat split. exact Hnan.
      * right. right. left. repeat split. exact Hinf.
  - right. right. right. exists nt. split; [reflexivity |].
    rewrite (simulation_after_num_steps L N _ _ _ _ _ _ _ nt Hn) in H.
    destruct (arange_error T dt) as [ea |] eqn:Ha.
    + injection H as <-. left. reflexivity.
    + right. split; [reflexivity |].
      destruct (make_spike nt spike_times) as [es | spike] eqn:Hsp.
      * injection H as <-.
        destruct (make_spike_inl N _ _ _ Hsp)
          as [[-> Hneg] | [[Hpos Hz] | [-> [Hpos [Hz Hbad]]]]].
        -- left. split; [reflexivity | exact Hneg].
        -- right. left. split; assumption.
        -- right. right. left. repeat split; assumption.
      * destruct (make_spike_length N _ _ _ Hsp) as [Hpos [Hz Hlen]].
        pose proof (make_spike_in_range N _ _ _ Hsp) as Hok.
        destruct (zeros4_error nt) as [e4 |] eqn:H4.
        -- injection H as <-. right. right. right. left.
           repeat split; assumption.
        -- right. right. right. right.
           destruct (run_error_cause L _ _ _ _ _ _ _ _ H)
             as [[_ Hneg] | [[-> [Hnt Hzero]] | [_ [_ [_ Hshort]]]]];
             [lia | | lia].
           repeat split; assumption.
Qed.
Lemma every_error_of_the_cell_has_its_cause_witness :
  simulation (L := reference_libm) (N := unbounded_numpy)
    0.5 1 20 0 50 "Euler" [0%Z] = inl ZeroDivisionError
  /\ exists nt : Z,
       num_steps 0.5 1 = inr nt /\ (0 < nt)%Z
       /\ ((0 =? 0) || (20 =? 0))%bool = true.
Proof.
  assert (H : simulation (L := reference_libm) (N := unbounded_numpy)
                0.5 1 20 0 50 "Euler" [0%Z] = inl ZeroDivisionError)
    by (vm_compute; reflexivity).
  split; [exact H |].
  destruct (every_error_of_the_cell_has_its_cause reference_libm
              unbounded_numpy 0.5 1 20 0 50 "Euler" [0%Z]
              ZeroDivisionError H)
    as [[_ Hdt] | [[He _] | [[He _] | [nt [Hn Hc]]]]];
    try discriminate Hdt; try discriminate He.
  exists nt. split; [exact Hn |].
  destruct Hc as [Ha | [_ [[He _] | [[_ Hz] | [[He _] | [[_ [_ [_ Hz]]]
                 | [_ [Hpos [_ [_ [_ Hzero]]]]]]]]]]];
    try discriminate Ha; try discriminate He; try discriminate Hz.
  split; [exact Hpos | exact Hzero].
Defined.

(** X11: the time constants are only looked at inside the loop.  Once the
    cell has been set up (NumPy has created the three arrays and the spike
    indices are in range), a zero [tr] or [td] raises [ZeroDivisionError] in
    the first iteration if there is at least one step, whatever the spike
    times and the solver name; with zero steps and no spike times the cell
    completes with an empty record, no [r] values and a spike count of 0,
    even if [tr] and [td] are zero. *)
Theorem zero_time_constant_raises_only_if_a_step_runs :
  forall (L : Libm) (N : NumPy) (dt T td tr amplitude : float)
         (solver : string) (spike_times : list Z) (nt : Z),
    num_steps dt T = inr nt ->
    arange_error T dt = None ->
    zeros_error nt = None ->
    zeros4_error nt = None ->
    ((0 < nt)%Z ->
     forallb (in_range nt) spike_times = true ->
     ((tr =? 0) || (td =? 0))%bool = true ->
     simulation dt T td tr amplitude solver spike_times
     = inl ZeroDivisionError)
    /\ (nt = 0%Z -> spike_times = [] ->
        simulation dt T td tr amplitude solver spike_times
        = inr {| res_X_arr := []; res_r_list := []; num_spikes := 0 |}).
Proof.
  intros L N dt T td tr amplitude solver spike_times nt Hn Ha Hz H4.
  rewrite (simulation_after_num_steps L N _ _ _ _ _ _ _ nt Hn), Ha.
  split.
  - intros Hpos Hok Hzero.
    destruct (make_spike_total N nt spike_times)
      as [spike Hsp]; [lia | exact Hz | exact Hok |].
    rewrite Hsp, H4. unfold run, np_zeros4.
    assert (Hlt : (nt <? 0)%Z = false) by (apply Z.ltb_ge; lia).
    rewrite Hlt. cbn [bind ret Monad_py].
    destruct (Z.to_nat nt) as [| k] eqn:Hk; [lia |].
    rewrite loop_prefix_zero_constant by exact Hzero. reflexivity.
  - intros -> ->. unfold make_spike, np_zeros. cbn [Z.ltb Z.compare].
    rewrite Hz. cbn [bind Monad_py setitems]. rewrite H4. reflexivity.
Qed.

Lemma zero_time_constant_raises_only_if_a_step_runs_witness :
  num_steps 0.5 1 = inr 2%Z
  /\ simulation (L := reference_libm) (N := unbounded_numpy)
       0.5 1 0 2 50 "Heun" [] = inl ZeroDivisionError.
Proof.
  split; [reflexivity |].
  apply (proj1 (zero_time_constant_raises_only_if_a_step_runs
                  reference_libm unbounded_numpy 0.5 1 0 2 50 "Heun" [] 2
                  eq_refl eq_refl eq_refl eq_refl));
    [lia | reflexivity | reflexivity].
Defined.

(** X12: in the cell as written, which builds its spike train itself, an
    [IndexError] of the cell's own can only come from
    [spike[spike_times] = 1].  When NumPy creates the three arrays, the cell
    raises [IndexError] exactly when the number of steps is not negative and
    some index of [spike_times] lies outside [-nt, nt); the loop never runs
    past the train. *)
Theorem cell_IndexError_iff_bad_spike_time :
  forall (L : Libm) (N : NumPy) (dt T td tr amplitude : float)
         (solver : string) (spike_times : list Z) (nt : Z),
    num_steps dt T = inr nt ->
    arange_error T dt = None ->
    zeros_error nt = None ->
    zeros4_error nt = None ->
    (simulation dt T td tr amplitude solver spike_times = inl IndexError
     <-> (0 <= nt)%Z /\ forallb (in_range nt) spike_times = false).
Proof.
  intros L N dt T td tr amplitude solver spike_times nt Hn Ha Hz H4.
  rewrite (simulation_after_num_steps L N _ _ _ _ _ _ _ nt Hn), Ha.
  split.
  - intros H.
    destruct (make_spike nt spike_times) as [e | spike] eqn:Hsp.
    + injection H as ->.
      destruct (make_spike_inl N _ _ _ Hsp)
        as [[He _] | [[_ Hze] | [_ [Hpos [_ Hbad]]]]].
      * discriminate He.
      * rewrite Hz in Hze. discriminate Hze.
      * split; assumption.
    + exfalso. rewrite H4 in H.
      destruct (make_spike_length N _ _ _ Hsp) as [Hpos [_ Hlen]].
      destruct (run_error_cause L _ _ _ _ _ _ _ _ H)
        as [[He _] | [[He _] | [_ [_ [_ Hshort]]]]];
        try discriminate He.
      lia.
  - intros [Hpos Hbad].
    assert (Hsp : make_spike nt spike_times = inl IndexError).
    { unfold make_spike, np_zeros.
      assert (Hlt : (nt <? 0)%Z = false) by (apply Z.ltb_ge; lia).
      rewrite Hlt, Hz. cbn [bind Monad_py]. apply setitems_inl.
      rewrite repeat_length, Z2Nat.id by lia. exact Hbad. }
    rewrite Hsp. reflexivity.
Qed.

Lemma cell_IndexError_iff_bad_spike_time_witness :
  num_steps 0.5 1 = inr 2%Z
  /\ simulation (L := reference_libm) (N := unbounded_numpy)
       0.5 1 20 2 50 "Euler" [2%Z] = inl IndexError.
Proof.
  split; [reflexivity |].
  apply (proj2 (cell_IndexError_iff_bad_spike_time reference_libm
                  unbounded_numpy 0.5 1 20 2 50 "Euler" [2%Z] 2
                  eq_refl eq_refl eq_refl eq_refl)).
  split; [lia | reflexivity].
Defined.

(** ** Counting spikes *)

Lemma column0_map : forall X : list array4, column0 X = map V_of X.
Proof. intros X. reflexivity. Qed.

Lemma scan_never_above : forall V : list float,
  (forall v, In v V -> (0 <? v) = false) ->
  np_sum (bitwise_and (map (fun v => v <? 0) (removelast V))
                      (map (fun v => 0 <? v) (tl V))) = 0%nat.
Proof.
  intros [| v0 V']; [reflexivity |].
  revert v0. induction V' as [| v1 rest IH]; intros v0 H; [reflexivity |].
  rewrite scan_cons.
  rewrite (H v1) by (right; left; reflexivity).
  rewrite andb_false_r. cbn [Nat.add].
  apply IH. intros v Hv. apply H. right. exact Hv.
Qed.

Lemma scan_never_below : forall V : list float,
  (forall v, In v V -> (v <? 0) = false) ->
  np_sum (bitwise_and (map (fun v => v <? 0) (removelast V))
                      (map (fun v => 0 <? v) (tl V))) = 0%nat.
Proof.
  intros [| v0 V']; [reflexivity |].
  revert v0. induction V' as [| v1 rest IH]; intros v0 H; [reflexivity |].
  rewrite scan_cons.
  rewrite (H v0) by (left; reflexivity).
  cbn [andb Nat.add].
  apply IH. intros v Hv. apply H. right. exact Hv.
Qed.

(** Two crossings never sit on adjacent steps. *)
Lemma scan_bound : forall V : list float,
  (2 * np_sum (bitwise_and (map (fun v => (v <? 0)%float) (removelast V))
                           (map (fun v => (0 <? v)%float) (tl V)))
   <= List.length V)%nat
  /\ (forall v0 V', V = v0 :: V' -> (v0 <? 0)%float = false ->
        (2 * np_sum (bitwise_and (map (fun v => (v <? 0)%float) (removelast V))
                                 (map (fun v => (0 <? v)%float) (tl V)))
         <= List.length V')%nat).
Proof.
  intros [| v0 V'].
  - split; [cbn; lia |]. intros v0 V' H. discriminate H.
  - revert v0. induction V' as [| v1 rest IH]; intros v0.
    + split; [cbn; lia |]. intros v V' H _. injection H as _ <-. cbn. lia.
    + destruct (IH v1) as [IH1 IH2]. rewrite scan_cons.
      split.
      * destruct ((v0 <? 0) && (0 <? v1)) eqn:Hc.
        -- apply andb_true_iff in Hc. destruct Hc as [_ Hup].
           apply above_zero_not_below in Hup.
           specialize (IH2 v1 rest eq_refl Hup).
           cbn [List.length] in IH1, IH2; cbn [List.length]; lia.
        -- cbn [List.length] in IH1; cbn [List.length]; lia.
      * intros v V'' H Hnb. injection H as <- <-.
        rewrite Hnb. cbn [andb Nat.add List.length] in IH1;
          cbn [andb Nat.add List.length]; lia.
Qed.

(** X13: the spike count never exceeds half the number of recorded steps,
    because two upward crossings cannot sit on adjacent steps; in
    particular an empty or one-row record has no spikes. *)
Theorem spike_count_at_most_half_the_steps :
  forall X : list array4,
    (2 * count_spikes X <= List.length X)%nat
    /\ ((List.length X <= 1)%nat -> count_spikes X = 0%nat).
Proof.
  intros X.
  assert (H : (2 * count_spikes X <= List.length X)%nat).
  { unfold count_spikes.
    destruct (scan_bound (column0 X)) as [Hb _].
    unfold column0 in Hb at 3. rewrite length_map in Hb. exact Hb. }
  split; [exact H |]. intros Hlen. lia.
Qed.

(** X14: a record whose voltage never rises above zero has no spikes, and
    neither has one whose voltage never falls below zero; NaN voltages
    compare false both ways, so a record of NaN rows has none. *)
Theorem no_crossing_no_spike :
  forall X : list array4,
    ((forall x, In x X -> (0 <? V_of x) = false) -> count_spikes X = 0%nat)
    /\ ((forall x, In x X -> (V_of x <? 0) = false) ->
        count_spikes X = 0%nat)
    /\ ((forall x, In x X -> is_nan (V_of x) = true) ->
        count_spikes X = 0%nat).
Proof.
  intros X.
  assert (Habove : (forall x, In x X -> (0 <? V_of x) = false) ->
                   count_spikes X = 0%nat).
  { intros H. unfold count_spikes. apply scan_never_above.
    intros v Hv. rewrite column0_map in Hv. apply in_map_iff in Hv.
    destruct Hv as [x [<- Hx]]. apply H. exact Hx. }
  split; [exact Habove |]. split.
  - intros H. unfold count_spikes. apply scan_never_below.
    intros v Hv. rewrite column0_map in Hv. apply in_map_iff in Hv.
    destruct Hv as [x [<- Hx]]. apply H. exact Hx.
  - intros H. apply Habove. intros x Hx.
    rewrite (is_nan_eq _ (H x Hx)). apply nan_not_above_zero.
Qed.

Lemma no_crossing_no_spike_witness :
  (forall x, In x [(-65, 0, 0, 0); (-61, 0, 0, 0); (-64, 0, 0, 0)] ->
             (0 <? V_of x) = false)
  /\ count_spikes [(-65, 0, 0, 0); (-61, 0, 0, 0); (-64, 0, 0, 0)] = 0%nat.
Proof.
  assert (H : forall x,
              In x [(-65, 0, 0, 0); (-61, 0, 0, 0); (-64, 0, 0, 0)] ->
              (0 <? V_of x) = false).
  { intros x [<- | [<- | [<- | []]]]; reflexivity. }
  split; [exact H |].
  apply (proj1 (no_crossing_no_spike
                  [(-65, 0, 0, 0); (-61, 0, 0, 0); (-64, 0, 0, 0)])).
  exact H.
Defined.

Lemma spike_count_at_most_half_the_steps_witness :
  (List.length [(1, 0, 0, 0)] <= 1)%nat
  /\ count_spikes [(1, 0, 0, 0)] = 0%nat.
Proof.
  split; [cbn; lia |].
  apply (proj2 (spike_count_at_most_half_the_steps [(1, 0, 0, 0)])).
  cbn. lia.
Defined.

(** ** A run under an unsupported solver name *)

Section UnsupportedRun.
Context {L : Libm}.
Variables (dt td tr amplitude : float) (solver : string).
Variables (spike : list float) (X0 : list array4).
Hypothesis unsupported : supported solver = false.



End UnsupportedRun.



(** ** The cell as written *)

(** X16: the cell as written completes whenever its set-up does: if
    [round(T/dt)] is a non-negative [nt], NumPy creates [time], [spike] and
    [X_arr], every index of [spike_times] lies in [-nt, nt), and [tr] and
    [td] are nonzero, then no exception is raised, whatever the solver name
    and the sign of [dt], and the record and the list of [r] values both
    have [nt] entries. *)
Theorem cell_completes_once_set_up :
  forall (L : Libm) (N : NumPy) (dt T td tr amplitude : float)
         (solver : string) (spike_times : list Z) (nt : Z),
    num_steps dt T = inr nt ->
    (0 <= nt)%Z ->
    arange_error T dt = None ->
    zeros_error nt = None ->
    zeros4_error nt = None ->
    forallb (in_range nt) spike_times = true ->
    (tr =? 0) = false -> (td =? 0) = false ->
    exists res : result,
      simulation dt T td tr amplitude solver spike_times = inr res
      /\ List.length (res_X_arr res) = Z.to_nat nt
      /\ List.length (res_r_list res) = Z.to_nat nt.
Proof.
  intros L N dt T td tr amplitude solver spike_times nt
         Hn Hpos Ha Hz H4 Hok Htr Htd.
  destruct (make_spike_total N nt spike_times Hpos Hz Hok) as [spike Hsp].
  destruct (run_on_built_train L N dt td tr amplitude solver spike_times
              nt spike Hsp Htr Htd) as [s [Hs Hrun]].
  rewrite (simulation_after_num_steps L N _ _ _ _ _ _ _ nt Hn).
  rewrite Ha, Hsp, H4, Hrun. eexists. split; [reflexivity |].
  cbn [res_X_arr res_r_list].
  destruct (loop_prefix_record dt td tr amplitude solver spike _ _ s Hs)
    as [HX [Hr _]]; [rewrite repeat_length; lia |].
  rewrite repeat_length in HX. split; assumption.
Qed.

Lemma cell_completes_once_set_up_witness :
  exists res : result,
    simulation (L := reference_libm) (N := unbounded_numpy)
      0.5 1 20 2 50 "RK4" [(-1)%Z] = inr res
    /\ List.length (res_X_arr res) = Z.to_nat 2
    /\ List.length (res_r_list res) = Z.to_nat 2.
Proof.
  apply (cell_completes_once_set_up reference_libm unbounded_numpy
           0.5 1 20 2 50 "RK4" [(-1)%Z] 2);
    try reflexivity.
  lia.
Defined.

(** X17: under "Euler" the drive passed to a step enters the new voltage
    only: the new voltage is [V + dt * ((I - I_Na - I_K - I_L) / C_m)],
    while the new gate values are the same for every drive.  A change of
    the drive reaches the gates one step later, through the voltage. *)
Theorem euler_step_gates_ignore_the_drive :
  forall (L : Libm) (s : self) (I1 I2 V m h n : float),
    states s = Some (V, m, h, n) ->
    solver s = "Euler"%string ->
    exists x1 x2 : array4,
      __call__ s I1
      = inr (set_states (set_I_m s (Some I1)) (Some x1), Some x1)
      /\ __call__ s I2
         = inr (set_states (set_I_m s (Some I2)) (Some x2), Some x2)
      /\ V_of x1
         = V + dt s * ((I1 - I_Na s V m h - I_K s V n - I_L s V) / C_m s)
      /\ m_of x1 = m_of x2 /\ h_of x1 = h_of x2 /\ n_of x1 = n_of x2
      /\ m_of x1 = m + dt s * (alpha_m V * (1 - m) - beta_m V * m).
Proof.
  intros L s I1 I2 V m h n Hs HE.
  exists ((V, m, h, n) +. dt s *. Spec.derivative s I1 (V, m, h, n)).
  exists ((V, m, h, n) +. dt s *. Spec.derivative s I2 (V, m, h, n)).
  rewrite (call_with_state L s I1 _ Hs), (call_with_state L s I2 _ Hs).
  unfold Solvers_value. rewrite HE. cbn [String.eqb Ascii.eqb Bool.eqb].
  split; [reflexivity |]. split; [reflexivity |].
  repeat split.
Qed.

Lemma euler_step_gates_ignore_the_drive_witness :
  exists x1 x2 : array4,
    __call__ (__init__ 0.01 "Euler") 0
    = inr (set_states (set_I_m (__init__ 0.01 "Euler") (Some 0)) (Some x1),
           Some x1)
    /\ __call__ (__init__ 0.01 "Euler") 50
       = inr (set_states (set_I_m (__init__ 0.01 "Euler") (Some 50))
                (Some x2), Some x2)
    /\ m_of x1 = m_of x2 /\ h_of x1 = h_of x2 /\ n_of x1 = n_of x2.
Proof.
  destruct (euler_step_gates_ignore_the_drive reference_libm
              (__init__ 0.01 "Euler") 0 50 (-65) 0.05 0.6 0.32
              eq_refl eq_refl)
    as [x1 [x2 [H1 [H2 [_ [Hm [Hh [Hn _]]]]]]]].
  exists x1, x2. repeat split; assumption.
Defined.

(** ** What the cell checks *)

(** C8, refuted as stated: a negative step size is detected nowhere.  The
    constructor accepts dt = -0.01 and the object then steps without
    complaint; the whole cell, run with dt = -0.5 and T = -1 (two steps, a
    spike at index 0), completes without any exception. *)
Lemma negative_dt_is_not_detected :
  (exists s' X, __call__ (__init__ (-0.01) "Euler") 0 = inr (s', Some X))
  /\ (exists res,
        simulation (L := reference_libm) (N := unbounded_numpy)
          (-0.5) (-1) 20 2 50 "Euler" [0%Z] = inr res).
Proof.
  split.
  - eexists. eexists. vm_compute. reflexivity.
  - eexists. vm_compute. reflexivity.
Qed.

(** C8 (amended): the cell checks nothing ahead of time; errors are the
    exceptions raised along the way.  The constructor stores any [dt].  A
    zero [dt] raises [ZeroDivisionError] when [round(T/dt)] is computed.  A
    negative [dt] is rejected only where it makes the number of steps
    negative: then, unless [np.arange] has raised before,
    [spike = np.zeros(nt)] raises [ValueError].  The spike train is built by
    the cell with exactly [nt] entries, so it is never shorter than the
    number of steps: with [tr] and [td] nonzero the loop runs all its
    iterations over it.  And whenever the number of steps is not negative,
    NumPy creates the three arrays, the spike indices are in range and [tr]
    and [td] are nonzero, the cell completes, also for a negative [dt]. *)
Theorem cell_errors_are_raised_on_the_way :
  forall (L : Libm) (N : NumPy) (dt T td tr amplitude : float)
         (solver : string) (spike_times : list Z),
    HodgkinHuxleyModel.dt (__init__ dt solver) = dt
    /\ ((dt =? 0) = true ->
        simulation dt T td tr amplitude solver spike_times
        = inl ZeroDivisionError)
    /\ (forall nt : Z,
          num_steps dt T = inr nt -> (nt < 0)%Z ->
          arange_error T dt = None ->
          simulation dt T td tr amplitude solver spike_times
          = inl ValueError)
    /\ (forall (nt : Z) (spike : list float),
          make_spike nt spike_times = inr spike ->
          List.length spike = Z.to_nat nt
          /\ ((tr =? 0) = false -> (td =? 0) = false ->
              exists s : loop_state,
                loop_prefix dt td tr amplitude solver spike
                  (repeat (0, 0, 0, 0) (Z.to_nat nt)) (Z.to_nat nt)
                = inr s))
    /\ (forall nt : Z,
          num_steps dt T = inr nt -> (0 <= nt)%Z ->
          arange_error T dt = None ->
          zeros_error nt = None ->
          zeros4_error nt = None ->
          forallb (in_range nt) spike_times = true ->
          (tr =? 0) = false -> (td =? 0) = false ->
          exists res : result,
            simulation dt T td tr amplitude solver spike_times = inr res).
Proof.
  intros L N dt T td tr amplitude solver spike_times.
  split; [reflexivity |]. split; [| split; [| split]].
  - intros Hdt. unfold simulation, num_steps, py_div.
    rewrite Hdt. reflexivity.
  - intros nt Hn Hneg Ha.
    rewrite (simulation_after_num_steps L N _ _ _ _ _ _ _ nt Hn), Ha.
    unfold make_spike, np_zeros.
    apply Z.ltb_lt in Hneg. rewrite Hneg. reflexivity.
  - intros nt spike Hsp.
    destruct (make_spike_length N _ _ _ Hsp) as [_ [_ Hlen]].
    split; [exact Hlen |]. intros Htr Htd.
    destruct (run_on_built_train L N dt td tr amplitude solver spike_times
                nt spike Hsp Htr Htd) as [s [Hs _]].
    exists s. exact Hs.
  - intros nt Hn Hpos Ha Hz H4 Hok Htr Htd.
    destruct (make_spike_total N nt spike_times Hpos Hz Hok)
      as [spike Hsp].
    destruct (run_on_built_train L N dt td tr amplitude solver spike_times
                nt spike Hsp Htr Htd) as [s [_ Hrun]].
    rewrite (simulation_after_num_steps L N _ _ _ _ _ _ _ nt Hn).
    rewrite Ha, Hsp, H4, Hrun. eexists. reflexivity.
Qed.

Lemma cell_errors_are_raised_on_the_way_witness :
  num_steps (-0.5) 1 = inr (-2)%Z
  /\ simulation (L := reference_libm) (N := unbounded_numpy)
       (-0.5) 1 20 2 50 "Euler" [0%Z] = inl ValueError.
Proof.
  split; [reflexivity |].
  apply (proj1 (proj2 (proj2
           (cell_errors_are_raised_on_the_way reference_libm
              unbounded_numpy (-0.5) 1 20 2 50 "Euler" [0%Z]))) (-2)%Z).
  - reflexivity.
  - lia.
  - reflexivity.
Defined.
